(** * DrankSpel: the pyramid drinking game

    A shallow embedding of the domain module [domein.py] (cards, deck,
    players, pyramid, game set-up and turn resolution) and of the JSON
    persistence module [persistentie.py], together with the properties the
    specification states about them.

    Python objects are modelled the way the code uses them:
    - [int] is [Z], [str] is [string], a [list] is a [list], a [set] of
      integers is a [gset Z];
    - a method is a computation in a state-and-exception monad whose state is
      the object the method is called on; a raised exception keeps the
      mutations made before it;
    - [Player] objects live in a store indexed by references, because
      [play_turn] receives two references that may denote the same object. *)

From Stdlib Require Import ZArith Lia String List.
From stdpp Require Import base tactics option list gmap strings.

#[local] Set Warnings "-register-all".
Local Open Scope string_scope.
Local Open Scope Z_scope.

(** ** Exceptions and the state-and-exception monad *)

Inductive exn : Type :=
| ValueError (msg : string)
| IndexError (msg : string)
| RuntimeError (msg : string)
| KeyError (key : string)
| TypeError (msg : string)
| FileNotFoundError (path : string)
| InvalidReference.
(* [InvalidReference] does not exist in Python, where a reference always
   denotes a live object; the store of the model is a finite map and reports
   a reference outside of it this way. *)

Inductive result (A : Type) : Type :=
| Ok (a : A)
| Raise (e : exn).
Arguments Ok {A} a.
Arguments Raise {A} e.

(** A computation over a state [S]: it returns a value or raises, and in both
    cases hands back the state as the statements executed so far left it. *)
Definition M (S A : Type) : Type := S -> result A * S.

Definition ret {S A} (a : A) : M S A := fun s => (Ok a, s).

Definition bind {S A B} (m : M S A) (k : A -> M S B) : M S B :=
  fun s => match m s with
           | (Ok a, s') => k a s'
           | (Raise e, s') => (Raise e, s')
           end.

Definition raise {S A} (e : exn) : M S A := fun s => (Raise e, s).
Definition get {S} : M S S := fun s => (Ok s, s).
Definition put {S} (s : S) : M S unit := fun _ => (Ok tt, s).
Definition modify {S} (f : S -> S) : M S unit := fun s => (Ok tt, f s).
Definition lift_result {S A} (r : result A) : M S A := fun s => (r, s).

(** Run a computation on a component of the state (a field of an object, or
    an object of the store). *)
Definition zoom {S T A} (proj : S -> T) (upd : T -> S -> S) (m : M T A) : M S A :=
  fun s => let '(r, t) := m (proj s) in (r, upd t s).

(** Run a computation that uses one more local variable [l], dropped at the
    end. *)
Definition with_local {S L A} (l : L) (m : M (S * L) A) : M S A :=
  fun s => let '(r, (s', _)) := m (s, l) in (r, s').

#[global] Instance M_ret {S} : MRet (M S) := fun A => @ret S A.
#[global] Instance M_bind {S} : MBind (M S) := fun A B k m => @bind S A B m k.

#[global] Instance result_ret : MRet result := fun A => @Ok A.
#[global] Instance result_bind : MBind result :=
  fun A B k r => match r with Ok a => k a | Raise e => Raise e end.

(** ** Python sequences *)

Section PySeq.
Context {A : Type}.

Definition len (l : list A) : Z := Z.of_nat (length l).

(** [l[i]]: a negative index counts from the end; out of range raises. *)
Definition py_getitem (l : list A) (i : Z) : result A :=
  let j := if i <? 0 then i + len l else i in
  if (j <? 0) || (len l <=? j) then Raise (IndexError "list index out of range")
  else match l !! Z.to_nat j with
       | Some x => Ok x
       | None => Raise (IndexError "list index out of range")
       end.

(** A slice bound is brought into [0 .. len l]. *)
Definition slice_bound (n i : Z) : Z :=
  if i <? 0 then Z.max 0 (i + n) else Z.min i n.

(** [l[lo:hi]] *)
Definition py_slice (l : list A) (lo hi : Z) : list A :=
  let a := slice_bound (len l) lo in
  let b := slice_bound (len l) hi in
  take (Z.to_nat (b - a)) (drop (Z.to_nat a) l).

(** [del l[lo:hi]] *)
Definition py_del_slice (l : list A) (lo hi : Z) : list A :=
  let a := slice_bound (len l) lo in
  let b := slice_bound (len l) hi in
  take (Z.to_nat a) l ++ drop (Z.to_nat (Z.max a b)) l.

(** [range(start, 0, -1)] *)
Definition range_down (start : Z) : list Z :=
  map (fun k => start - Z.of_nat k) (seq 0 (Z.to_nat start)).
End PySeq.

(** ** Cards and the deck *)

Record Card : Type := mkCard { rank : string; suit : string }.

#[global] Instance Card_eq_dec : EqDecision Card.
Proof. solve_decision. Defined.

Module Deck.
Definition ranks : list string :=
  ["A"; "2"; "3"; "4"; "5"; "6"; "7"; "8"; "9"; "10"; "J"; "Q"; "K"].
Definition suits : list string := ["hearts"; "diamonds"; "clubs"; "spades"].

Record t : Type := mk { cards : list Card }.

(** [[Card(rank, suit) for suit in self.suits for rank in self.ranks]] *)
Definition fresh_cards : list Card :=
  flat_map (fun s => map (fun r => mkCard r s) ranks) suits.

(** [Deck.__init__] *)
Definition __init__ : result t :=
  let cs := fresh_cards in
  if negb (len cs =? 52) then Raise (ValueError "Deck must contain 52 cards")
  else Ok (mk cs).

(** [Deck.deal] *)
Definition deal (n : Z) : M t (list Card) :=
  self ← get;
  if len (cards self) <? n then raise (ValueError "Not enough cards to deal")
  else
    let dealt := py_slice (cards self) 0 n in
    put (mk (py_del_slice (cards self) 0 n));;
    mret dealt.

(** [Deck.__len__] *)
Definition __len__ (self : t) : Z := len (cards self).
End Deck.

(** [math.isqrt]: the integer square root, defined on non-negative integers. *)
Definition isqrt (n : Z) : result Z :=
  if n <? 0 then Raise (ValueError "isqrt() argument must be nonnegative")
  else Ok (Z.sqrt n).

(** [Game._max_pyramid_rows] *)
Definition _max_pyramid_rows (remaining : Z) : result Z :=
  r ← isqrt (8 * remaining + 1);
  mret ((r - 1) / 2).

(** [R] is the largest integer with [R(R+1)/2 <= remaining]. *)
Definition largest_rows (remaining R : Z) : Prop :=
  R * (R + 1) / 2 <= remaining /\
  forall k : Z, k * (k + 1) / 2 <= remaining -> k <= R.

(** ** Players and the store of player objects *)

Module Player.
Record t : Type := mk {
  name : string;
  hand : list Card;
  revealed_indices : gset Z;
  drinks_taken : Z
}.

(** [Player.__init__] *)
Definition __init__ (name : string) : t := mk name [] ∅ 0.

(** [Player.receive] *)
Definition receive (cards : list Card) : M t unit :=
  modify (fun self =>
    mk (name self) (hand self ++ cards) (revealed_indices self) (drinks_taken self)).

(** [Player.reveal]: the index is recorded first, the hand is read second. *)
Definition reveal (index : Z) : M t Card :=
  modify (fun self =>
    mk (name self) (hand self) ({[index]} ∪ revealed_indices self) (drinks_taken self));;
  self ← get;
  lift_result (py_getitem (hand self) index).

(** [Player.drink] *)
Definition drink (amount : Z) : M t unit :=
  modify (fun self =>
    mk (name self) (hand self) (revealed_indices self) (drinks_taken self + amount)).
End Player.

(** A reference to a [Player] object. *)
Definition loc : Type := nat.

Abbreviation store := (gmap loc Player.t).

(** Call a method on the object a reference denotes. *)
Definition on_player {A} (l : loc) (m : M Player.t A) : M store A :=
  fun h => match h !! l with
           | Some p => let '(r, p') := m p in (r, <[l := p']> h)
           | None => (Raise InvalidReference, h)
           end.

(** [Player(name)]: a new object, at a reference not in use. *)
Definition new_player (name : string) : M store loc :=
  fun h => let l := fresh (dom h) in (Ok l, <[l := Player.__init__ name]> h).

(** Run a computation on one component of a pair of states. *)
Definition in_store {S L A} (m : M S A) : M (S * L) A :=
  zoom fst (fun h s => (h, snd s)) m.
Definition in_local {S L A} (m : M L A) : M (S * L) A :=
  zoom snd (fun l s => (fst s, l)) m.

(** ** The pyramid *)

Module Pyramid.
Record t : Type := mk {
  rows : list (list Card);
  _row : Z;
  _col : Z
}.

(** The loop of [Pyramid.__init__]: one slice of [cards] per row size. *)
Fixpoint build_rows (cards : list Card) (sizes : list Z) (idx : Z)
  : list (list Card) :=
  match sizes with
  | [] => []
  | size :: sizes' =>
      py_slice cards idx (idx + size) :: build_rows cards sizes' (idx + size)
  end.

(** [Pyramid.__init__] *)
Definition __init__ (cards : list Card) (rows : Z) : t :=
  mk (build_rows cards (range_down rows) 0) 0 0.

(** [Pyramid.next_card] *)
Definition next_card : M t (option Card) :=
  self ← get;
  if len (rows self) <=? _row self then mret None
  else
    row ← lift_result (py_getitem (rows self) (_row self));
    card ← lift_result (py_getitem row (_col self));
    put (mk (rows self) (_row self) (_col self + 1));;
    self ← get;
    row ← lift_result (py_getitem (rows self) (_row self));
    (if len row <=? _col self
     then put (mk (rows self) (_row self + 1) 0)
     else mret tt);;
    mret (Some card).

(** The pyramid is exhausted: the cursor is past the last row. *)
Definition exhausted (p : t) : bool := len (rows p) <=? _row p.

(** The invariant of the data model: no row is empty and the cursor, counted
    from 0, is on a cell of its row whenever that row exists. *)
Definition wf (p : t) : bool :=
  (0 <=? _row p) && (0 <=? _col p)
  && forallb (fun r => 0 <? len r) (rows p)
  && match rows p !! Z.to_nat (_row p) with
     | Some r => _col p <? len r
     | None => true
     end.

(** The cell under the cursor of a well-formed pyramid. *)
Definition peek (p : t) : option Card :=
  rows p !! Z.to_nat (_row p) ≫= fun r => r !! Z.to_nat (_col p).

(** The cells not yet revealed, in the order of revelation. *)
Definition pending (p : t) : list Card :=
  match drop (Z.to_nat (_row p)) (rows p) with
  | [] => []
  | r :: above => drop (Z.to_nat (_col p)) r ++ concat above
  end.
End Pyramid.

(** ** The game *)

Module Game.
Record t : Type := mk {
  players : list loc;
  pyramid : Pyramid.t;
  rest_stapel : list Card
}.

(** The dealing loop of [Game.__init__]: four cards to each player. *)
Fixpoint deal_hands (ps : list loc) : M (store * Deck.t) unit :=
  match ps with
  | [] => mret tt
  | player :: ps' =>
      cards ← in_local (Deck.deal 4);
      in_store (on_player player (Player.receive cards));;
      deal_hands ps'
  end.

(** [Game.__init__]; [shuffle] is the effect of [random.shuffle] on the
    deck during this construction.  [self.deck] ends empty and is never read
    again, so the game of the model does not keep it. *)
Definition __init__ (shuffle : list Card -> list Card) (player_names : list string)
  : M store t :=
  if negb ((2 <=? len player_names) && (len player_names <=? 12))
  then raise (ValueError "minstens 2, max 12 spelers voor 4 kaarten pp")
  else
    players ← mapM new_player player_names;
    deck ← lift_result Deck.__init__;
    with_local (Deck.mk (shuffle (Deck.cards deck)))
      (deal_hands players;;
       deck ← in_local get;
       let remaining := Deck.__len__ deck in
       rows ← lift_result (_max_pyramid_rows remaining);
       pyramid_cards ← in_local (Deck.deal (rows * (rows + 1) / 2));
       let pyramid := Pyramid.__init__ pyramid_cards rows in
       deck ← in_local get;
       rest ← in_local (Deck.deal (Deck.__len__ deck));
       mret (mk players pyramid rest)).

(** [Game.reveal_next_card] *)
Definition reveal_next_card : M t (option Card) :=
  zoom pyramid (fun p self => mk (players self) p (rest_stapel self))
    Pyramid.next_card.

(** [Game.play_turn]; the state is the store of players and the game
    itself. *)
Definition play_turn (claimer target : option loc) (chosen_index : option Z)
    (target_believes : bool) : M (store * t) (Card * option string) :=
  card ← in_local reveal_next_card;
  match card with
  | None => raise (RuntimeError "No more cards in the pyramid")
  | Some card =>
      match claimer, target, chosen_index with
      | Some claimer, Some target, Some chosen_index =>
          if target_believes then
            in_store (on_player target (Player.drink 1));;
            tp ← in_store (on_player target get);
            mret (card, Some (Player.name tp +:+ " drinkt 1"))
          else
            shown ← in_store (on_player claimer (Player.reveal chosen_index));
            if bool_decide (rank shown = rank card) then
              in_store (on_player target (Player.drink 2));;
              tp ← in_store (on_player target get);
              mret (card, Some (Player.name tp +:+ " drinkt 2"))
            else
              in_store (on_player claimer (Player.drink 2));;
              cp ← in_store (on_player claimer get);
              mret (card, Some (Player.name cp +:+ " drinkt 2"))
      | _, _, _ => mret (card, None)
      end
  end.

(** [n] calls of [reveal_next_card] in a row, with what each returned. *)
Fixpoint reveal_many (n : nat) : M t (list (option Card)) :=
  match n with
  | O => mret []
  | S n' => c ← reveal_next_card; cs ← reveal_many n'; mret (c :: cs)
  end.
End Game.

(** Reading a field of the player a reference denotes. *)
Definition drinks_of (h : store) (l : loc) : option Z := Player.drinks_taken <$> h !! l.
Definition hand_of (h : store) (l : loc) : option (list Card) := Player.hand <$> h !! l.
Definition revealed_of (h : store) (l : loc) : option (gset Z) :=
  Player.revealed_indices <$> h !! l.

(** ** Persistence *)

(** The values [json.dumps] writes and [json.loads] reads; a Python tuple is
    written as an array, a dict is an object with its keys in order. *)
Inductive json : Type :=
| JNull
| JBool (b : bool)
| JInt (z : Z)
| JStr (s : string)
| JArr (items : list json)
| JObj (fields : list (string * json)).

(** [v[key]] on a document. *)
Definition json_getitem (v : json) (key : string) : result json :=
  match v with
  | JObj fields =>
      match list_find (fun kv => fst kv = key) fields with
      | Some (_, (_, x)) => Ok x
      | None => Raise (KeyError key)
      end
  | _ => Raise (TypeError "indices must be integers")
  end.

(** The loader is modelled on documents whose values have the types the
    persisted format gives them.  On a document of another shape the Python
    code would go on with values of other types; the model reports a
    [TypeError] there. *)
Definition as_list (v : json) : result (list json) :=
  match v with JArr items => Ok items | _ => Raise (TypeError "expected a list") end.
Definition as_int (v : json) : result Z :=
  match v with JInt z => Ok z | _ => Raise (TypeError "expected an int") end.
Definition as_str (v : json) : result string :=
  match v with JStr s => Ok s | _ => Raise (TypeError "expected a str") end.

(** [_card_to_tuple] *)
Definition _card_to_tuple (card : Card) : json :=
  JArr [JStr (rank card); JStr (suit card)].

(** [_card_from_tuple]: [rank, suit = data] needs exactly two items. *)
Definition _card_from_tuple (data : json) : result Card :=
  items ← as_list data;
  match items with
  | [r; s] => rank ← as_str r; suit ← as_str s; mret (mkCard rank suit)
  | _ => Raise (ValueError "wrong number of values to unpack")
  end.

(** The dict [save_game] builds for one player; [list(set)] lists the
    elements of the set in the order the set gives them. *)
Definition player_to_json (p : Player.t) : json :=
  JObj [ ("name", JStr (Player.name p));
         ("hand", JArr (map _card_to_tuple (Player.hand p)));
         ("revealed", JArr (map JInt (elements (Player.revealed_indices p))));
         ("drinks_taken", JInt (Player.drinks_taken p)) ].

Definition pyramid_to_json (p : Pyramid.t) : json :=
  JObj [ ("rows", JArr (map (fun row => JArr (map _card_to_tuple row)) (Pyramid.rows p)));
         ("pos", JObj [ ("row", JInt (Pyramid._row p)); ("col", JInt (Pyramid._col p)) ]) ].

(** The dict [save_game] builds, [ps] being the players of the game as the
    store has them. *)
Definition document (ps : list Player.t) (game : Game.t) : json :=
  JObj [ ("players", JArr (map player_to_json ps));
         ("pyramid", pyramid_to_json (Game.pyramid game));
         ("rest_stapel", JArr (map _card_to_tuple (Game.rest_stapel game))) ].

Section Persistence.
(** The text of a file, and the [json] library. *)
Variable text : Type.
Variable dumps : json -> text.
Variable loads : text -> result json.

(** The files, by name. *)
Definition write_text (filename : string) (content : text) : M (gmap string text) unit :=
  modify (fun fs => <[filename := content]> fs).
Definition read_text (filename : string) : M (gmap string text) text :=
  fs ← get;
  match fs !! filename with
  | Some content => mret content
  | None => raise (FileNotFoundError filename)
  end.

(** [save_game] *)
Definition save_game (game : Game.t) (filename : string)
  : M (store * gmap string text) unit :=
  ps ← in_store (mapM (fun l => on_player l get) (Game.players game));
  let data := document ps game in
  in_local (write_text filename (dumps data)).

(** The loop of [load_game] over [zip(data["players"], game.players)]. *)
Fixpoint restore_players (ps_data : list json) (players : list loc) : M store unit :=
  match ps_data, players with
  | p_data :: ps_data', player :: players' =>
      hand ← lift_result (h ← json_getitem p_data "hand"; l ← as_list h;
                          mapM _card_from_tuple l);
      on_player player (modify (fun self =>
        Player.mk (Player.name self) hand
                  (Player.revealed_indices self) (Player.drinks_taken self)));;
      revealed ← lift_result (r ← json_getitem p_data "revealed"; l ← as_list r;
                              mapM as_int l);
      on_player player (modify (fun self =>
        Player.mk (Player.name self) (Player.hand self)
                  (list_to_set revealed) (Player.drinks_taken self)));;
      drinks ← lift_result (d ← json_getitem p_data "drinks_taken"; as_int d);
      on_player player (modify (fun self =>
        Player.mk (Player.name self) (Player.hand self)
                  (Player.revealed_indices self) drinks));;
      restore_players ps_data' players'
  | _, _ => mret tt
  end.

(** [load_game] *)
Definition load_game (shuffle : list Card -> list Card) (filename : string)
  : M (store * gmap string text) Game.t :=
  content ← in_local (read_text filename);
  data ← lift_result (loads content);
  players_data ← lift_result (ps ← json_getitem data "players"; as_list ps);
  names ← lift_result (mapM (fun p => n ← json_getitem p "name"; as_str n) players_data);
  game ← in_store (Game.__init__ shuffle names);
  in_store (restore_players players_data (Game.players game));;
  rows_data ← lift_result (py ← json_getitem data "pyramid";
                           rs ← json_getitem py "rows";
                           l ← as_list rs; mapM as_list l);
  cards ← lift_result (mapM _card_from_tuple (concat rows_data));
  let pyramid := Pyramid.__init__ cards (len rows_data) in
  rows ← lift_result (mapM (mapM _card_from_tuple) rows_data);
  let pyramid := Pyramid.mk rows (Pyramid._row pyramid) (Pyramid._col pyramid) in
  row ← lift_result (py ← json_getitem data "pyramid"; pos ← json_getitem py "pos";
                     r ← json_getitem pos "row"; as_int r);
  let pyramid := Pyramid.mk (Pyramid.rows pyramid) row (Pyramid._col pyramid) in
  col ← lift_result (py ← json_getitem data "pyramid"; pos ← json_getitem py "pos";
                     c ← json_getitem pos "col"; as_int c);
  let pyramid := Pyramid.mk (Pyramid.rows pyramid) (Pyramid._row pyramid) col in
  rest ← lift_result (rs ← json_getitem data "rest_stapel"; l ← as_list rs;
                      mapM _card_from_tuple l);
  mret (Game.mk (Game.players game) pyramid rest).
End Persistence.

(** ** The statements of the specification about a challenged claim and
       about [Player.reveal] *)

(** The player after [self.revealed_indices.add(index)]. *)
Definition mark_revealed (index : Z) (p : Player.t) : Player.t :=
  Player.mk (Player.name p) (Player.hand p)
            ({[index]} ∪ Player.revealed_indices p) (Player.drinks_taken p).

(** The player after [self.drinks_taken += amount]. *)
Definition add_drinks (amount : Z) (p : Player.t) : Player.t :=
  Player.mk (Player.name p) (Player.hand p)
            (Player.revealed_indices p) (Player.drinks_taken p + amount).

(** The card of a hand a Python index denotes, if any. *)
Definition card_at (hand : list Card) (index : Z) : option Card :=
  match py_getitem hand index with Ok c => Some c | Raise _ => None end.

(** What the specification says of [play_turn(claimer, target, chosen_index,
    False)] when [claimer] denotes the player [cp], [target] the player [tp]
    and the pyramid shows [card] next: the card is revealed; the target
    drinks 2 if the claimer's card at [chosen_index] has the rank of [card],
    the claimer drinks 2 otherwise, the other one of the two drinks nothing;
    [chosen_index] joins the claimer's revealed set. *)
Definition challenge_resolved (h : store) (g : Game.t) (claimer target : loc)
    (chosen_index : Z) (cp tp : Player.t) (card : Card) : Prop :=
  let '(r, (h', g')) :=
    Game.play_turn (Some claimer) (Some target) (Some chosen_index) false (h, g) in
  (exists outcome, r = Ok (card, outcome)) /\
  Game.pyramid g' = snd (Pyramid.next_card (Game.pyramid g)) /\
  (if bool_decide (rank <$> card_at (Player.hand cp) chosen_index = Some (rank card))
   then drinks_of h' target = Some (Player.drinks_taken tp + 2) /\
        drinks_of h' claimer = Some (Player.drinks_taken cp)
   else drinks_of h' claimer = Some (Player.drinks_taken cp + 2) /\
        drinks_of h' target = Some (Player.drinks_taken tp)) /\
  revealed_of h' claimer = Some ({[chosen_index]} ∪ Player.revealed_indices cp).

(** What the specification says of [Player.reveal(index)] on a hand of four
    cards: it succeeds on 0..3, marking the index and returning the card
    there, and fails on every other index. *)
Definition reveal_bounds_0_3 (p : Player.t) (index : Z) : Prop :=
  (0 <= index <= 3 ->
   exists c, Player.hand p !! Z.to_nat index = Some c /\
     Player.reveal index p = (Ok c, mark_revealed index p)) /\
  (~ (0 <= index <= 3) -> exists e, fst (Player.reveal index p) = Raise e).

(** What the specification says of a failing operation: the state after it is
    the state before it. *)
Definition fails_unchanged {S A} (m : M S A) (s : S) : Prop :=
  forall e s', m s = (Raise e, s') -> s' = s.

(** Two states of a player that differ at most in the revealed set. *)
Definition same_but_revealed (p p' : Player.t) : Prop :=
  Player.name p' = Player.name p /\
  Player.hand p' = Player.hand p /\
  Player.drinks_taken p' = Player.drinks_taken p.

(** ** Sample objects *)

Definition alice : Player.t :=
  Player.mk "A" [mkCard "A" "hearts"; mkCard "2" "hearts";
                 mkCard "3" "hearts"; mkCard "4" "hearts"] ∅ 0.
Definition bob : Player.t :=
  Player.mk "B" [mkCard "5" "hearts"; mkCard "6" "hearts";
                 mkCard "7" "hearts"; mkCard "8" "hearts"] ∅ 0.

Definition sample_store : store := <[1%nat := bob]> (<[0%nat := alice]> ∅).

(** Two players and a pyramid of two rows: A, K below and Q on top. *)
Definition sample_game : Game.t :=
  Game.mk [0%nat; 1%nat]
    (Pyramid.__init__ [mkCard "A" "spades"; mkCard "K" "spades"; mkCard "Q" "spades"] 2)
    [mkCard "J" "spades"].

(** The same game with its three pyramid cards revealed. *)
Definition finished_game : Game.t :=
  Game.mk [0%nat; 1%nat]
    (Pyramid.mk [[mkCard "A" "spades"; mkCard "K" "spades"]; [mkCard "Q" "spades"]] 2 0)
    [mkCard "J" "spades"].

Definition sample_deck : Deck.t :=
  Deck.mk [mkCard "A" "clubs"; mkCard "2" "clubs"; mkCard "3" "clubs"].

(** ** The invariant of a game in play *)

(** A player as the game keeps them: four cards in hand, no negative count of
    drinks. *)
Definition player_ok (p : Player.t) : Prop :=
  len (Player.hand p) = 4 /\ 0 <= Player.drinks_taken p.

(** 2 to 12 players, all different live objects in good state, and a
    well-formed pyramid. *)
Definition game_ok (h : store) (g : Game.t) : Prop :=
  2 <= len (Game.players g) <= 12 /\
  NoDup (Game.players g) /\
  Forall (fun l => exists p, h !! l = Some p /\ player_ok p) (Game.players g) /\
  Pyramid.wf (Game.pyramid g) = true.

(** ** The console interface *)

Module Cli.
(** The console: the lines the user types, how many of them were read so
    far, and what was written.  The user answers every prompt, so [input]
    always has a line to return. *)
Record console : Type := mkConsole {
  typed : nat -> string;
  read : nat;
  written : list string
}.

Definition newline : string := String (Ascii.ascii_of_nat 10) EmptyString.

(** [print(s)] *)
Definition print (s : string) : M console unit :=
  modify (fun c => mkConsole (typed c) (read c) (written c ++ [s +:+ newline])).

(** [input(prompt)] *)
Definition input (prompt : string) : M console string :=
  c ← get;
  put (mkConsole (typed c) (S (read c)) (written c ++ [prompt]));;
  mret (typed c (read c)).

(** The console after [print(s)], and after [input(prompt)]. *)
Definition printed (s : string) (c : console) : console :=
  mkConsole (typed c) (read c) (written c ++ [s +:+ newline]).
Definition asked (prompt : string) (c : console) : console :=
  mkConsole (typed c) (S (read c)) (written c ++ [prompt]).

(** The loop of [_get_player]. *)
Fixpoint _get_player_from (players : list loc) (name : string) : M store (option loc) :=
  match players with
  | [] => mret None
  | player :: players' =>
      p ← on_player player get;
      if bool_decide (Player.name p = name) then mret (Some player)
      else _get_player_from players' name
  end.

(** [_get_player] *)
Definition _get_player (game : Game.t) (name : string) : M store (option loc) :=
  _get_player_from (Game.players game) name.

(** How a pass through the body of the loop of [run] ends: with [continue]
    (or by reaching the end of the body), or with [break]. *)
Inductive flow : Type := Continue | Break.

Section Run.
(** [str.strip], [str.lower], [str.split(",")] and [int] on a string, which
    raises [ValueError] on what is no integer; [shuffle] as in
    [Game.__init__]. *)
Variable strip : string -> string.
Variable lower : string -> string.
Variable split_comma : string -> list string.
Variable int : string -> result Z.
Variable shuffle : list Card -> list Card.

(** [_ask_players] *)
Definition _ask_players : M console (list string) :=
  names ← input "Spelers (comma-gescheiden): ";
  mret (map strip (filter (fun n => strip n <> "") (split_comma names))).

(** The body of the [while True] loop of [run]; the state is the store with
    the game, and the console. *)
Definition loop_body : M (store * Game.t * console) flow :=
  card ← in_store (in_local Game.reveal_next_card);
  match card with
  | None => in_local (print "Piramide is op. Spel voorbij!");; mret Break
  | Some card =>
      in_local (print ("Piramidekaart: " +:+ rank card));;
      line ← in_local (input "Claimer (enter voor geen claim): ");
      let claimer_name := strip line in
      if bool_decide (claimer_name = "") then mret Continue
      else
        game ← in_store (in_local get);
        claimer ← in_store (in_store (_get_player game claimer_name));
        match claimer with
        | None => in_local (print "Onbekende speler");; mret Continue
        | Some claimer =>
            line ← in_local (input "Doelwit: ");
            let target_name := strip line in
            game ← in_store (in_local get);
            target ← in_store (in_store (_get_player game target_name));
            match target with
            | None => in_local (print "Ongeldig doelwit");; mret Continue
            | Some target =>
                if bool_decide (target = claimer)
                then in_local (print "Ongeldig doelwit");; mret Continue
                else
                  line ← in_local (input "Welke kaartindex (0-3): ");
                  match int line with
                  | Raise (ValueError _) =>
                      in_local (print "Ongeldige index");; mret Continue
                  | Raise e => raise e
                  | Ok index =>
                      line ← in_local (input "Gelooft doelwit? (j/n): ");
                      let believes := negb (bool_decide (lower (strip line) = "n")) in
                      r ← in_store (Game.play_turn (Some claimer) (Some target)
                                                   (Some index) believes);
                      match snd r with
                      | Some outcome =>
                          if bool_decide (outcome = "") then mret Continue
                          else in_local (print outcome);; mret Continue
                      | None => mret Continue
                      end
                  end
            end
        end
  end.

(** The loop of [run], for at most [fuel] passes; [false] when the passes
    ran out before the loop ended. *)
Fixpoint run_loop (fuel : nat) : M (store * Game.t * console) bool :=
  match fuel with
  | O => mret false
  | S fuel' =>
      f ← loop_body;
      match f with
      | Break => mret true
      | Continue => run_loop fuel'
      end
  end.

(** [run]: the names are asked, the game is built, the loop runs. *)
Definition run (fuel : nat) : M (store * console) bool :=
  player_names ← in_local _ask_players;
  game ← in_store (Game.__init__ shuffle player_names);
  ((fun s => let '(r, ((h, _), c)) := run_loop fuel ((fst s, game), snd s) in (r, (h, c)))
   : M (store * console) bool).
End Run.
End Cli.

(** A user who claims as "A" against "B" with card 1 and is not believed,
    for ever. *)
Definition sample_typed (k : nat) : string :=
  match (k mod 4)%nat with
  | 0%nat => "A" | 1%nat => "B" | 2%nat => "1" | _ => "n"
  end.

(** An [int] that knows the digits 0 to 3. *)
Definition sample_int (s : string) : result Z :=
  if bool_decide (s = "0") then Ok 0
  else if bool_decide (s = "1") then Ok 1
  else if bool_decide (s = "2") then Ok 2
  else if bool_decide (s = "3") then Ok 3
  else Raise (ValueError "invalid literal for int() with base 10").

Definition sample_console : Cli.console := Cli.mkConsole sample_typed 0 [].

(** * Properties *)

(** ** Running computations *)

Lemma bind_Ok {S A B} (m : M S A) (k : A -> M S B) s a s' :
  m s = (Ok a, s') -> (m ≫= k) s = k a s'.
Proof. intros E. unfold mbind, M_bind, bind. by rewrite E. Qed.

Lemma in_local_run {S L A} (m : M L A) (s : S) (l : L) :
  in_local m (s, l) = (fst (m l), (s, snd (m l))).
Proof. unfold in_local, zoom. simpl. by destruct (m l). Qed.

Lemma in_store_run {S L A} (m : M S A) (s : S) (l : L) :
  in_store m (s, l) = (fst (m s), (snd (m s), l)).
Proof. unfold in_store, zoom. simpl. by destruct (m s). Qed.

(** ** The tests of the repository, run on the model *)

(** [test_pyramid_setup]: three players, four cards each, eight rows and four
    cards left; [reverse] stands for the shuffle. *)
Example test_pyramid_setup :
  match Game.__init__ reverse ["A"; "B"; "C"] ∅ with
  | (Ok game, h) =>
      (length (Game.players game),
       map (fun l => length <$> hand_of h l) (Game.players game),
       length (Pyramid.rows (Game.pyramid game)),
       length (Game.rest_stapel game))
      = (3%nat, [Some 4%nat; Some 4%nat; Some 4%nat], 8%nat, 4%nat)
  | _ => False
  end.
Proof. vm_compute. reflexivity. Qed.

(** In the manner of [test_play_turn_outcomes]: a believed claim and two
    caught bluffs, one turn after the other. *)
Example test_play_turn_outcomes :
  let s0 := (sample_store, sample_game) in
  let '(r1, s1) := Game.play_turn (Some 0%nat) (Some 1%nat) (Some 0) true s0 in
  let '(r2, s2) := Game.play_turn (Some 0%nat) (Some 1%nat) (Some 1) false s1 in
  let '(r3, s3) := Game.play_turn (Some 1%nat) (Some 0%nat) (Some 2) false s2 in
  r1 = Ok (mkCard "A" "spades", Some "B drinkt 1") /\
  r2 = Ok (mkCard "K" "spades", Some "A drinkt 2") /\
  r3 = Ok (mkCard "Q" "spades", Some "B drinkt 2") /\
  drinks_of (fst s3) 0%nat = Some 2 /\ drinks_of (fst s3) 1%nat = Some 3 /\
  revealed_of (fst s3) 0%nat = Some {[1]} /\ revealed_of (fst s3) 1%nat = Some {[2]} /\
  snd s3 = finished_game.
Proof. vm_compute. repeat split. Qed.

(** Five reveals on a pyramid of three cards. *)
Example test_reveal_until_done :
  Game.reveal_many 5 sample_game =
    (Ok [Some (mkCard "A" "spades"); Some (mkCard "K" "spades");
         Some (mkCard "Q" "spades"); None; None], finished_game).
Proof. reflexivity. Qed.

(** [test_persistence_round_trip], with the document itself as the text of
    the file. *)
Example test_persistence_round_trip :
  let '(_, (_, fs)) := save_game json id sample_game "game.json" (sample_store, ∅) in
  match load_game json Ok reverse "game.json" (∅, fs) with
  | (Ok loaded, (h, _)) =>
      fst (Game.reveal_next_card loaded) = Ok (Some (mkCard "A" "spades")) /\
      map (fun l => Player.name <$> h !! l) (Game.players loaded) = [Some "A"; Some "B"]
  | _ => False
  end.
Proof. vm_compute. split; reflexivity. Qed.

(** ** Python sequences *)

Lemma len_nonneg {A} (l : list A) : 0 <= len l.
Proof. unfold len. lia. Qed.

Lemma py_getitem_Ok {A} (l : list A) (i : Z) (x : A) :
  py_getitem l i = Ok x <->
  (0 <= i < len l /\ l !! Z.to_nat i = Some x) \/
  (- len l <= i < 0 /\ l !! Z.to_nat (i + len l) = Some x).
Proof.
  unfold py_getitem. pose proof (len_nonneg l) as Hl.
  destruct (Z.ltb_spec i 0) as [Hi|Hi].
  - destruct (Z.ltb_spec (i + len l) 0), (Z.leb_spec (len l) (i + len l)); simpl;
      try (split; [discriminate | intros [[? _]|[? _]]; lia]).
    destruct (l !! Z.to_nat (i + len l)) eqn:E.
    + split; [intros [= ->]; right; split; [lia | done] |].
      intros [[? _]|[_ ?]]; [lia | congruence].
    + split; [discriminate | intros [[? _]|[_ ?]]; [lia | congruence]].
  - destruct (Z.ltb_spec i 0), (Z.leb_spec (len l) i); simpl;
      try (split; [discriminate | intros [[? _]|[? _]]; lia]).
    destruct (l !! Z.to_nat i) eqn:E.
    + split; [intros [= ->]; left; split; [lia | done] |].
      intros [[_ ?]|[? _]]; [congruence | lia].
    + split; [discriminate | intros [[_ ?]|[? _]]; [congruence | lia]].
Qed.

Lemma py_getitem_Raise {A} (l : list A) (i : Z) e :
  py_getitem l i = Raise e -> i < - len l \/ len l <= i.
Proof.
  intros E. destruct (decide (i < - len l \/ len l <= i)) as [|Hn]; [done|].
  pose proof (len_nonneg l) as Hl. exfalso.
  assert (exists x, py_getitem l i = Ok x) as [x Hx]; [|congruence].
  destruct (Z.ltb_spec i 0) as [Hi|Hi].
  - destruct (lookup_lt_is_Some_2 l (Z.to_nat (i + len l))) as [x Hx];
      [unfold len in *; lia|].
    exists x. apply py_getitem_Ok. right. split; [lia | done].
  - destruct (lookup_lt_is_Some_2 l (Z.to_nat i)) as [x Hx];
      [unfold len in *; lia|].
    exists x. apply py_getitem_Ok. left. split; [lia | done].
Qed.

Lemma py_getitem_out_of_range {A} (l : list A) (i : Z) :
  i < - len l \/ len l <= i -> exists e, py_getitem l i = Raise e.
Proof.
  intros Hi. destruct (py_getitem l i) eqn:E; [|eauto].
  apply py_getitem_Ok in E. lia.
Qed.

Lemma py_getitem_nat {A} (l : list A) (i : Z) (x : A) :
  0 <= i -> l !! Z.to_nat i = Some x -> py_getitem l i = Ok x.
Proof.
  intros Hi E. apply py_getitem_Ok. left. split; [|done].
  apply lookup_lt_Some in E. unfold len. lia.
Qed.

Lemma slice_prefix {A} (l : list A) (n : Z) :
  0 <= n <= len l -> py_slice l 0 n = take (Z.to_nat n) l.
Proof.
  intros Hn. unfold py_slice, slice_bound. simpl.
  destruct (Z.ltb_spec n 0); [lia|].
  rewrite Z.min_l, Z.min_l by lia. simpl. f_equal. lia.
Qed.

Lemma del_slice_prefix {A} (l : list A) (n : Z) :
  0 <= n <= len l -> py_del_slice l 0 n = drop (Z.to_nat n) l.
Proof.
  intros Hn. unfold py_del_slice, slice_bound. simpl.
  destruct (Z.ltb_spec n 0); [lia|].
  rewrite (Z.min_l 0), (Z.min_l n) by lia. simpl. f_equal. lia.
Qed.

Lemma slice_prefix_negative {A} (l : list A) (n : Z) :
  - len l <= n < 0 -> py_slice l 0 n = take (Z.to_nat (len l + n)) l.
Proof.
  intros Hn. unfold py_slice, slice_bound. simpl.
  destruct (Z.ltb_spec n 0); [|lia].
  rewrite Z.min_l, Z.max_r by lia. simpl. f_equal. lia.
Qed.

Lemma del_slice_prefix_negative {A} (l : list A) (n : Z) :
  - len l <= n < 0 -> py_del_slice l 0 n = drop (Z.to_nat (len l + n)) l.
Proof.
  intros Hn. unfold py_del_slice, slice_bound. simpl.
  destruct (Z.ltb_spec n 0); [|lia].
  rewrite (Z.min_l 0), (Z.max_r 0 (n + _)) by lia. simpl. f_equal. lia.
Qed.

(** ** The deck *)

Lemma deal_run (n : Z) (d : Deck.t) :
  Deck.deal n d =
    if len (Deck.cards d) <? n
    then (Raise (ValueError "Not enough cards to deal"), d)
    else (Ok (py_slice (Deck.cards d) 0 n), Deck.mk (py_del_slice (Deck.cards d) 0 n)).
Proof.
  unfold Deck.deal, mbind, M_bind, bind, get. simpl.
  by destruct (len (Deck.cards d) <? n).
Qed.

Lemma deal_prefix (n : Z) (d : Deck.t) :
  0 <= n <= len (Deck.cards d) ->
  Deck.deal n d =
    (Ok (take (Z.to_nat n) (Deck.cards d)), Deck.mk (drop (Z.to_nat n) (Deck.cards d))).
Proof.
  intros Hn. rewrite deal_run. destruct (Z.ltb_spec (len (Deck.cards d)) n); [lia|].
  by rewrite slice_prefix, del_slice_prefix by done.
Qed.

Lemma deal_fails_unchanged (n : Z) (d : Deck.t) : fails_unchanged (Deck.deal n) d.
Proof.
  intros e d'. rewrite deal_run.
  destruct (len (Deck.cards d) <? n); congruence.
Qed.

(** C10. A negative count [n] with [-L <= n < 0] on a deck of [L] cards does
    not fail: [deal] returns the first [L + n] cards and removes them, so that
    exactly the last [|n|] cards stay in the deck. *)
Theorem deal_negative_count (d : Deck.t) (n : Z) :
  - len (Deck.cards d) <= n < 0 ->
  let k := Z.to_nat (len (Deck.cards d) + n) in
  Deck.deal n d = (Ok (take k (Deck.cards d)), Deck.mk (drop k (Deck.cards d))) /\
  len (take k (Deck.cards d)) = len (Deck.cards d) + n /\
  len (drop k (Deck.cards d)) = Z.abs n.
Proof.
  intros Hn k. split; [|split].
  - rewrite deal_run. destruct (Z.ltb_spec (len (Deck.cards d)) n) as [Hlt|_].
    + pose proof (len_nonneg (Deck.cards d)). lia.
    + by rewrite slice_prefix_negative, del_slice_prefix_negative by done.
  - unfold len in *. rewrite length_take. lia.
  - unfold len in *. rewrite length_drop. lia.
Qed.

Lemma deal_negative_count_witness :
  Deck.deal (-2) sample_deck =
    (Ok [mkCard "A" "clubs"], Deck.mk [mkCard "2" "clubs"; mkCard "3" "clubs"]).
Proof.
  refine (proj1 (deal_negative_count sample_deck (-2) _)).
  vm_compute. split; [discriminate | reflexivity].
Defined.

(** ** The row count *)

Lemma triangle_even (k : Z) : k * (k + 1) = 2 * (k * (k + 1) / 2).
Proof.
  assert (Z.even (k * (k + 1)) = true) as He.
  { rewrite Z.even_mul, Z.add_1_r, Z.even_succ, <- Z.negb_even.
    by destruct (Z.even k). }
  apply Z.even_spec in He as [q Hq]. rewrite Hq.
  rewrite (Z.mul_comm 2 q), Z.div_mul by lia. lia.
Qed.

Lemma max_rows_bounds (remaining : Z) :
  0 <= remaining ->
  let R := (Z.sqrt (8 * remaining + 1) - 1) / 2 in
  0 <= R /\ R * (R + 1) <= 2 * remaining < (R + 1) * (R + 2).
Proof.
  intros Hr R.
  pose proof (Z.sqrt_spec (8 * remaining + 1) ltac:(lia)) as Hs. cbv zeta in Hs.
  set (s := Z.sqrt (8 * remaining + 1)) in *.
  assert (1 <= s) as Hs1.
  { destruct (Z.le_gt_cases 1 s); [done|]. assert (s = 0) as -> by (subst s; pose proof (Z.sqrt_nonneg (8 * remaining + 1)); lia). lia. }
  assert (2 * R <= s - 1 < 2 * R + 2) as HR.
  { subst R. pose proof (Z.div_mod (s - 1) 2 ltac:(lia)).
    pose proof (Z.mod_pos_bound (s - 1) 2 ltac:(lia)). lia. }
  assert (0 <= R) by lia.
  split; [done|]. split; nia.
Qed.

(** C3. On every non-negative [remaining], the closed form over exact
    integers, [(isqrt(8*remaining+1) - 1) // 2], is the largest [R] with
    [R(R+1)/2 <= remaining]. *)
Theorem max_pyramid_rows_is_largest (remaining : Z) :
  0 <= remaining ->
  exists R, _max_pyramid_rows remaining = Ok R /\
    R = (Z.sqrt (8 * remaining + 1) - 1) / 2 /\
    0 <= R /\ largest_rows remaining R.
Proof.
  intros Hr. eexists. split; [|split; [reflexivity|]].
  - unfold _max_pyramid_rows, isqrt.
    destruct (Z.ltb_spec (8 * remaining + 1) 0); [lia | reflexivity].
  - destruct (max_rows_bounds remaining Hr) as (H0 & Hle & Hlt).
    set (R := (Z.sqrt (8 * remaining + 1) - 1) / 2) in *.
    split; [done|]. split.
    + pose proof (triangle_even R). lia.
    + intros k Hk. pose proof (triangle_even k).
      destruct (Z.le_gt_cases k R); [done|]. nia.
Qed.

Lemma max_pyramid_rows_is_largest_witness :
  exists R, _max_pyramid_rows 40 = Ok R /\
    R = (Z.sqrt (8 * 40 + 1) - 1) / 2 /\ 0 <= R /\ largest_rows 40 R.
Proof. apply (max_pyramid_rows_is_largest 40). lia. Defined.

Lemma max_pyramid_rows_bounds_largest (remaining : Z) :
  0 <= remaining ->
  let R := (Z.sqrt (8 * remaining + 1) - 1) / 2 in
  0 <= R /\ R * (R + 1) / 2 <= remaining /\ largest_rows remaining R.
Proof.
  intros Hr R. destruct (max_rows_bounds remaining Hr) as (H0 & Hle & Hlt).
  fold R in H0, Hle, Hlt. pose proof (triangle_even R).
  split; [done|]. split; [lia|]. split; [lia|].
  intros k Hk. pose proof (triangle_even k).
  destruct (Z.le_gt_cases k R); [done|]. nia.
Qed.

(** ** Revealing a card of a hand *)

Lemma reveal_run (index : Z) (p : Player.t) :
  Player.reveal index p = (py_getitem (Player.hand p) index, mark_revealed index p).
Proof. reflexivity. Qed.

Lemma reveal_fails (index : Z) (p : Player.t) e p' :
  Player.reveal index p = (Raise e, p') ->
  p' = mark_revealed index p /\
  (index < - len (Player.hand p) \/ len (Player.hand p) <= index).
Proof.
  rewrite reveal_run. intros [= E <-]. split; [done|].
  by eapply py_getitem_Raise.
Qed.

(** C9, as the specification states it, fails: on a hand of four cards the
    index -1 is not in 0..3, and [reveal(-1)] succeeds and returns the last
    card of the hand. *)
Lemma reveal_negative_index_succeeds :
  Player.reveal (-1) alice = (Ok (mkCard "4" "hearts"), mark_revealed (-1) alice) /\
  ~ reveal_bounds_0_3 alice (-1).
Proof.
  split; [reflexivity|].
  intros [_ Hfail]. destruct Hfail as [e He]; [lia|]. discriminate He.
Qed.

(** C9, amended. On a hand of four cards [reveal(index)] succeeds exactly on
    [-4 <= index <= 3]: it marks the index revealed and returns the card at
    position [index mod 4], which for 0..3 is the card at [index] and for -4..-1
    is counted from the end of the hand.  It fails when [index < -4] or
    [index > 3]; on 0..3 it does what the specification says. *)
Theorem reveal_bounds (p : Player.t) (index : Z) :
  len (Player.hand p) = 4 ->
  (-4 <= index <= 3 ->
   exists c, Player.hand p !! Z.to_nat (index mod 4) = Some c /\
     Player.reveal index p = (Ok c, mark_revealed index p)) /\
  (index < -4 \/ 3 < index -> exists e, fst (Player.reveal index p) = Raise e) /\
  (0 <= index <= 3 ->
   exists c, Player.hand p !! Z.to_nat index = Some c /\
     Player.reveal index p = (Ok c, mark_revealed index p)).
Proof.
  intros Hlen.
  assert (forall j : Z, 0 <= j <= 3 -> is_Some (Player.hand p !! Z.to_nat j)) as Hin.
  { intros j Hj. apply lookup_lt_is_Some_2. unfold len in Hlen. lia. }
  split; [|split].
  - intros Hi. rewrite reveal_run.
    destruct (Hin (index mod 4)) as [c Hc].
    { pose proof (Z.mod_pos_bound index 4 ltac:(lia)). lia. }
    exists c. split; [done|]. f_equal. apply py_getitem_Ok. rewrite Hlen.
    destruct (Z.ltb_spec index 0) as [Hneg|Hpos].
    + right. split; [lia|].
      replace (index + 4) with (index mod 4); [done|].
      symmetry. apply (Z.mod_unique index 4 (-1)); lia.
    + left. split; [lia|]. by rewrite Z.mod_small in Hc by lia.
  - intros Hi. rewrite reveal_run. simpl.
    apply py_getitem_out_of_range. rewrite Hlen. lia.
  - intros Hi. rewrite reveal_run.
    destruct (Hin index Hi) as [c Hc]. exists c. split; [done|]. f_equal.
    apply py_getitem_nat; [lia | done].
Qed.

Lemma reveal_bounds_witness :
  exists c, Player.hand alice !! Z.to_nat (-4 mod 4) = Some c /\
    Player.reveal (-4) alice = (Ok c, mark_revealed (-4) alice).
Proof.
  refine (proj1 (reveal_bounds alice (-4) _) _); [reflexivity | lia].
Defined.

(** ** The pyramid *)

Lemma next_card_exhausted (p : Pyramid.t) :
  Pyramid.exhausted p = true -> Pyramid.next_card p = (Ok None, p).
Proof.
  unfold Pyramid.exhausted, Pyramid.next_card, mbind, M_bind, bind, get. simpl.
  by intros ->.
Qed.

Lemma next_card_run (p : Pyramid.t) (row : list Card) (card : Card) :
  Pyramid.exhausted p = false ->
  py_getitem (Pyramid.rows p) (Pyramid._row p) = Ok row ->
  py_getitem row (Pyramid._col p) = Ok card ->
  Pyramid.next_card p =
    (Ok (Some card),
     if len row <=? Pyramid._col p + 1
     then Pyramid.mk (Pyramid.rows p) (Pyramid._row p + 1) 0
     else Pyramid.mk (Pyramid.rows p) (Pyramid._row p) (Pyramid._col p + 1)).
Proof.
  unfold Pyramid.exhausted. intros Hex Hrow Hcard.
  unfold Pyramid.next_card, mbind, M_bind, bind, get, put, lift_result. simpl.
  rewrite Hex, Hrow, Hcard. simpl. rewrite ?Hrow.
  by destruct (len row <=? Pyramid._col p + 1).
Qed.

Lemma next_card_fails_unchanged (p : Pyramid.t) : fails_unchanged Pyramid.next_card p.
Proof.
  intros e p'. destruct (Pyramid.exhausted p) eqn:Hex.
  { by rewrite next_card_exhausted. }
  destruct (py_getitem (Pyramid.rows p) (Pyramid._row p)) as [row|e1] eqn:Hrow.
  - destruct (py_getitem row (Pyramid._col p)) as [card|e2] eqn:Hcard.
    + by rewrite (next_card_run p row card).
    + unfold Pyramid.exhausted in Hex.
      unfold Pyramid.next_card, mbind, M_bind, bind, get, put, lift_result. simpl.
      rewrite Hex, Hrow, Hcard. congruence.
  - unfold Pyramid.exhausted in Hex.
    unfold Pyramid.next_card, mbind, M_bind, bind, get, put, lift_result. simpl.
    rewrite Hex, Hrow. congruence.
Qed.

Lemma next_card_None_exhausted (p p' : Pyramid.t) :
  Pyramid.next_card p = (Ok None, p') -> Pyramid.exhausted p = true.
Proof.
  destruct (Pyramid.exhausted p) eqn:Hex; [done|].
  destruct (py_getitem (Pyramid.rows p) (Pyramid._row p)) as [row|e1] eqn:Hrow.
  - destruct (py_getitem row (Pyramid._col p)) as [card|e2] eqn:Hcard.
    + by rewrite (next_card_run p row card).
    + unfold Pyramid.exhausted in Hex.
      unfold Pyramid.next_card, mbind, M_bind, bind, get, put, lift_result. simpl.
      rewrite Hex, Hrow, Hcard. congruence.
  - unfold Pyramid.exhausted in Hex.
    unfold Pyramid.next_card, mbind, M_bind, bind, get, put, lift_result. simpl.
    rewrite Hex, Hrow. congruence.
Qed.

Lemma wf_unfold (p : Pyramid.t) :
  Pyramid.wf p = true <->
  0 <= Pyramid._row p /\ 0 <= Pyramid._col p /\
  Forall (fun r => 0 < len r) (Pyramid.rows p) /\
  (forall r, Pyramid.rows p !! Z.to_nat (Pyramid._row p) = Some r ->
             Pyramid._col p < len r).
Proof.
  unfold Pyramid.wf. rewrite !andb_true_iff, !Z.leb_le, forallb_forall, Forall_forall.
  setoid_rewrite Z.ltb_lt. setoid_rewrite <- list_elem_of_In.
  destruct (Pyramid.rows p !! Z.to_nat (Pyramid._row p)) as [r|].
  - rewrite Z.ltb_lt. split.
    + intros [[[? ?] ?] ?]. repeat split; try done. by intros ? [= <-].
    + intros (? & ? & ? & Hr). repeat split; try done. by apply Hr.
  - split; [intros [[[? ?] ?] ?] | intros (? & ? & ? & ?)]; repeat split; done.
Qed.

(** On a well-formed pyramid that is not exhausted, [next_card] returns the
    cell under the cursor and moves to the next cell in the order of
    revelation. *)
Lemma next_card_wf (p : Pyramid.t) :
  Pyramid.wf p = true -> Pyramid.exhausted p = false ->
  exists card,
    Pyramid.peek p = Some card /\
    fst (Pyramid.next_card p) = Ok (Some card) /\
    Pyramid.wf (snd (Pyramid.next_card p)) = true /\
    Pyramid.rows (snd (Pyramid.next_card p)) = Pyramid.rows p /\
    Pyramid.pending p = card :: Pyramid.pending (snd (Pyramid.next_card p)).
Proof.
  intros Hwf Hex. pose proof Hwf as (Hr & Hc & Hall & Hcur)%wf_unfold.
  pose proof Hex as Hlt. unfold Pyramid.exhausted in Hlt. apply Z.leb_gt in Hlt.
  destruct (lookup_lt_is_Some_2 (Pyramid.rows p) (Z.to_nat (Pyramid._row p)))
    as [row Hrow]; [unfold len in Hlt; lia|].
  specialize (Hcur row Hrow).
  destruct (lookup_lt_is_Some_2 row (Z.to_nat (Pyramid._col p)))
    as [card Hcard]; [unfold len in Hcur; lia|].
  exists card.
  rewrite (next_card_run p row card Hex) by (by apply py_getitem_nat).
  unfold Pyramid.peek, Pyramid.pending. rewrite Hrow. simpl.
  rewrite (drop_S _ _ _ Hrow), (drop_S _ _ _ Hcard).
  split; [done|]. split; [done|].
  destruct (Z.leb_spec (len row) (Pyramid._col p + 1)) as [Hlast|Hmore]; simpl.
  - split; [|split; [done|]].
    + apply wf_unfold. simpl. repeat split; [lia | lia | done |].
      intros r Hr'. eapply Forall_forall in Hall; [exact Hall|].
      eapply list_elem_of_lookup_2, Hr'.
    + replace (Z.to_nat (Pyramid._row p + 1)) with (S (Z.to_nat (Pyramid._row p))) by lia.
      rewrite (drop_ge row (S _)) by (unfold len in Hlast; lia). simpl.
      by destruct (drop (S (Z.to_nat (Pyramid._row p))) (Pyramid.rows p)).
  - split; [|split; [done|]].
    + apply wf_unfold. simpl. repeat split; [lia | lia | done |].
      intros r Hr'. rewrite Hrow in Hr'. injection Hr' as <-. lia.
    + rewrite (drop_S _ _ _ Hrow).
      by replace (Z.to_nat (Pyramid._col p + 1)) with (S (Z.to_nat (Pyramid._col p))) by lia.
Qed.

Lemma pending_nil_exhausted (p : Pyramid.t) :
  Pyramid.wf p = true -> Pyramid.pending p = [] -> Pyramid.exhausted p = true.
Proof.
  intros Hwf Hnil. destruct (Pyramid.exhausted p) eqn:Hex; [done|].
  destruct (next_card_wf p Hwf Hex) as (card & _ & _ & _ & _ & Hp). congruence.
Qed.

(** *** Building the rows *)

Lemma range_down_succ (n : nat) :
  range_down (Z.of_nat (S n)) = Z.of_nat (S n) :: range_down (Z.of_nat n).
Proof.
  unfold range_down. rewrite !Nat2Z.id. simpl seq. simpl map.
  f_equal; try lia. rewrite <- seq_shift, map_map.
  apply map_ext. intros k. lia.
Qed.

Lemma range_down_length (R : Z) : length (range_down R) = Z.to_nat R.
Proof. unfold range_down. by rewrite length_map, length_seq. Qed.

Lemma range_down_positive (R : Z) : Forall (fun k => 0 < k) (range_down R).
Proof.
  unfold range_down. apply Forall_forall. intros x Hx.
  apply list_elem_of_In, in_map_iff in Hx as (k & <- & Hk). apply in_seq in Hk. lia.
Qed.

Lemma range_down_sum (n : nat) :
  foldr Z.add 0 (range_down (Z.of_nat n)) = Z.of_nat n * (Z.of_nat n + 1) / 2.
Proof.
  induction n as [|n IH]; [reflexivity|].
  rewrite range_down_succ. simpl foldr. rewrite IH.
  pose proof (triangle_even (Z.of_nat n)). pose proof (triangle_even (Z.of_nat (S n))).
  nia.
Qed.

Lemma slice_inside {A} (l : list A) (lo hi : Z) :
  0 <= lo <= hi -> hi <= len l ->
  py_slice l lo hi = take (Z.to_nat (hi - lo)) (drop (Z.to_nat lo) l).
Proof.
  intros Hlo Hhi. unfold py_slice, slice_bound.
  destruct (Z.ltb_spec lo 0), (Z.ltb_spec hi 0); try lia.
  by rewrite !Z.min_l by lia.
Qed.

Lemma build_rows_spec (cards : list Card) (sizes : list Z) (idx : Z) :
  Forall (fun k => 0 < k) sizes -> 0 <= idx ->
  idx + foldr Z.add 0 sizes <= len cards ->
  map len (Pyramid.build_rows cards sizes idx) = sizes /\
  concat (Pyramid.build_rows cards sizes idx) =
    take (Z.to_nat (foldr Z.add 0 sizes)) (drop (Z.to_nat idx) cards).
Proof.
  revert idx. induction sizes as [|size sizes IH]; intros idx Hpos Hidx Hsum.
  { done. }
  apply Forall_cons in Hpos as [Hsize Hpos]. simpl in Hsum.
  assert (0 <= foldr Z.add 0 sizes) as Hrest.
  { clear -Hpos. induction Hpos; simpl; lia. }
  destruct (IH (idx + size) Hpos ltac:(lia) ltac:(lia)) as [IHlen IHcat].
  simpl. rewrite IHlen, IHcat, slice_inside by lia.
  replace (idx + size - idx) with size by lia. split.
  - f_equal. unfold len in *. rewrite length_take, length_drop. lia.
  - rewrite Z2Nat.inj_add, Z2Nat.inj_add by lia.
    rewrite <- drop_drop. by rewrite take_take_drop.
Qed.

(** A pyramid built with [R >= 0] rows from exactly [R(R+1)/2] cards has rows
    of sizes R, R-1, ..., 1 that partition the cards in order, and is
    well formed with every card pending. *)
Lemma pyramid_init_spec (cards : list Card) (R : Z) :
  0 <= R -> R * (R + 1) / 2 <= len cards ->
  let p := Pyramid.__init__ cards R in
  map len (Pyramid.rows p) = range_down R /\
  concat (Pyramid.rows p) = take (Z.to_nat (R * (R + 1) / 2)) cards /\
  Pyramid.pending p = concat (Pyramid.rows p) /\
  Pyramid.wf p = true.
Proof.
  intros HR Hlen p.
  assert (foldr Z.add 0 (range_down R) = R * (R + 1) / 2) as Hsum.
  { rewrite <- (Z2Nat.id R) by done. apply range_down_sum. }
  destruct (build_rows_spec cards (range_down R) 0) as [Hl Hc];
    [apply range_down_positive | lia | lia |].
  rewrite Hsum in Hc. simpl in Hc.
  split; [done|]. split; [done|]. split.
  - unfold Pyramid.pending. simpl. by destruct (Pyramid.build_rows _ _ _).
  - assert (Forall (fun r : list Card => 0 < len r) (Pyramid.rows p)) as Hall.
    { pose proof (range_down_positive R) as Hp. rewrite <- Hl in Hp.
      rewrite Forall_forall in Hp. apply Forall_forall. intros r Hr.
      apply Hp. by apply list_elem_of_In, in_map, list_elem_of_In. }
    apply wf_unfold. simpl. repeat split; [done | done | done |].
    intros r Hr. eapply Forall_forall in Hall; [exact Hall|].
    eapply list_elem_of_lookup_2, Hr.
Qed.

(** *** Revealing one card after the other *)

Lemma reveal_next_card_run (g : Game.t) :
  Game.reveal_next_card g =
    (fst (Pyramid.next_card (Game.pyramid g)),
     Game.mk (Game.players g) (snd (Pyramid.next_card (Game.pyramid g)))
             (Game.rest_stapel g)).
Proof.
  unfold Game.reveal_next_card, zoom. by destruct (Pyramid.next_card (Game.pyramid g)).
Qed.

Lemma reveal_many_S (n : nat) (g : Game.t) :
  Game.reveal_many (S n) g =
    match Game.reveal_next_card g with
    | (Ok c, g') =>
        match Game.reveal_many n g' with
        | (Ok cs, g'') => (Ok (c :: cs), g'')
        | (Raise e, g'') => (Raise e, g'')
        end
    | (Raise e, g') => (Raise e, g')
    end.
Proof.
  simpl. unfold mbind, M_bind, bind.
  destruct (Game.reveal_next_card g) as [[c|e] g']; [|done].
  by destruct (Game.reveal_many n g') as [[cs|e] g''].
Qed.

Lemma reveal_many_pending (n : nat) (g : Game.t) :
  Pyramid.wf (Game.pyramid g) = true ->
  (n <= length (Pyramid.pending (Game.pyramid g)))%nat ->
  exists g',
    Game.reveal_many n g = (Ok (map Some (take n (Pyramid.pending (Game.pyramid g)))), g') /\
    Pyramid.wf (Game.pyramid g') = true /\
    Pyramid.pending (Game.pyramid g') = drop n (Pyramid.pending (Game.pyramid g)) /\
    Pyramid.rows (Game.pyramid g') = Pyramid.rows (Game.pyramid g) /\
    Game.players g' = Game.players g /\ Game.rest_stapel g' = Game.rest_stapel g.
Proof.
  revert g. induction n as [|n IH]; intros g Hwf Hn.
  { exists g. by rewrite drop_0. }
  destruct (Pyramid.exhausted (Game.pyramid g)) eqn:Hex.
  { pose proof (next_card_exhausted _ Hex) as Hnone.
    destruct (Pyramid.pending (Game.pyramid g)) eqn:Hp; [simpl in Hn; lia|].
    exfalso. unfold Pyramid.exhausted in Hex. apply Z.leb_le in Hex.
    unfold Pyramid.pending in Hp. rewrite drop_ge in Hp; [done|].
    unfold len in Hex. lia. }
  destruct (next_card_wf _ Hwf Hex) as (card & _ & Hfst & Hwf' & Hrows & Hpend).
  rewrite Hpend in Hn. simpl in Hn.
  set (g1 := Game.mk (Game.players g) (snd (Pyramid.next_card (Game.pyramid g)))
                     (Game.rest_stapel g)).
  destruct (IH g1 Hwf' ltac:(simpl; lia)) as (g' & Hrun & Hwf'' & Hp' & Hr' & Hpl & Hrs).
  exists g'. rewrite reveal_many_S, reveal_next_card_run, Hfst. fold g1.
  rewrite Hrun, Hpend. simpl. repeat split; try done. by rewrite Hr'.
Qed.

Lemma reveal_many_exhausted (m : nat) (g : Game.t) :
  Pyramid.exhausted (Game.pyramid g) = true ->
  Game.reveal_many m g = (Ok (replicate m None), g).
Proof.
  intros Hex. induction m as [|m IH]; [done|].
  rewrite reveal_many_S, reveal_next_card_run, next_card_exhausted by done.
  simpl. destruct g. simpl in *. by rewrite IH.
Qed.

Lemma reveal_many_app (n m : nat) (g : Game.t) cs g' :
  Game.reveal_many n g = (Ok cs, g') ->
  Game.reveal_many (n + m) g =
    match Game.reveal_many m g' with
    | (Ok cs', g'') => (Ok (cs ++ cs')%list, g'')
    | (Raise e, g'') => (Raise e, g'')
    end.
Proof.
  revert g cs. induction n as [|n IH]; intros g cs Hrun.
  { injection Hrun as <- <-. simpl. by destruct (Game.reveal_many m g) as [[?|?] ?]. }
  rewrite reveal_many_S in Hrun. simpl Nat.add. rewrite reveal_many_S.
  destruct (Game.reveal_next_card g) as [[c|e] g1]; [|done].
  destruct (Game.reveal_many n g1) as [[cs1|e] g2] eqn:Hn; [|done].
  injection Hrun as <- <-. rewrite (IH g1 cs1 Hn).
  by destruct (Game.reveal_many m g2) as [[?|?] ?].
Qed.

(** C4. On a game whose pyramid was built with [R] rows from exactly
    [R(R+1)/2] cards, the first [R(R+1)/2] calls of [reveal_next_card] return
    the cells of the pyramid, each once, bottom row first and every row from
    left to right (which is the order of the cards the pyramid was built
    from); every later call returns no card and leaves the game as the
    [R(R+1)/2]-th call left it. *)
Theorem reveal_all_then_none (cards : list Card) (R : Z) (g : Game.t) (m : nat) :
  0 <= R -> len cards = R * (R + 1) / 2 ->
  Game.pyramid g = Pyramid.__init__ cards R ->
  let total := Z.to_nat (R * (R + 1) / 2) in
  map len (Pyramid.rows (Game.pyramid g)) = range_down R /\
  concat (Pyramid.rows (Game.pyramid g)) = cards /\
  exists g_end,
    Game.reveal_many total g = (Ok (map Some cards), g_end) /\
    length (map Some cards) = total /\
    Pyramid.exhausted (Game.pyramid g_end) = true /\
    Game.reveal_many (total + m) g = (Ok (map Some cards ++ replicate m None)%list, g_end) /\
    Game.reveal_many m g_end = (Ok (replicate m None), g_end).
Proof.
  intros HR Hlen Hpyr total.
  destruct (pyramid_init_spec cards R HR ltac:(lia)) as (Hsizes & Hcat & Hpend & Hwf).
  rewrite <- Hpyr in Hsizes, Hcat, Hpend, Hwf.
  assert (length cards = total) as Htotal by (unfold len in Hlen; lia).
  rewrite <- Hlen in Hcat. unfold len in Hcat. rewrite Nat2Z.id, firstn_all in Hcat.
  rewrite Hcat in Hpend.
  split; [done|]. split; [done|].
  destruct (reveal_many_pending total g Hwf) as (g_end & Hrun & Hwf' & Hp' & _);
    [rewrite Hpend; lia|].
  rewrite Hpend, <- Htotal, firstn_all in Hrun. rewrite Hpend, <- Htotal, drop_all in Hp'.
  pose proof (pending_nil_exhausted _ Hwf' Hp') as Hex.
  exists g_end. rewrite <- Htotal.
  split; [done|]. split; [by rewrite length_map|]. split; [done|].
  split; [|by apply reveal_many_exhausted].
  rewrite (reveal_many_app _ m g _ _ Hrun). by rewrite reveal_many_exhausted.
Qed.

Lemma reveal_all_then_none_witness :
  exists g_end,
    Game.reveal_many (3 + 2) sample_game =
      (Ok [Some (mkCard "A" "spades"); Some (mkCard "K" "spades");
           Some (mkCard "Q" "spades"); None; None], g_end) /\
    Game.reveal_many 2 g_end = (Ok [None; None], g_end).
Proof.
  destruct (reveal_all_then_none
              [mkCard "A" "spades"; mkCard "K" "spades"; mkCard "Q" "spades"]
              2 sample_game 2 ltac:(lia) eq_refl eq_refl)
    as (_ & _ & g_end & _ & _ & _ & Hrun & Hidem).
  exists g_end. split; [exact Hrun | exact Hidem].
Defined.

(** ** Taking a turn *)

Lemma on_player_run {A} (l : loc) (m : M Player.t A) (h : store) (p : Player.t) :
  h !! l = Some p -> on_player l m h = (fst (m p), <[l := snd (m p)]> h).
Proof. intros E. unfold on_player. rewrite E. by destruct (m p). Qed.

Lemma on_player_get (l : loc) (h : store) (p : Player.t) :
  h !! l = Some p -> on_player l get h = (Ok p, h).
Proof. intros E. rewrite (on_player_run l get h p E). simpl. by rewrite insert_id. Qed.

Lemma on_player_invalid {A} (l : loc) (m : M Player.t A) (h : store) :
  h !! l = None -> on_player l m h = (Raise InvalidReference, h).
Proof. intros E. unfold on_player. by rewrite E. Qed.

(** The game after the pyramid cursor moved on. *)
Lemma play_turn_start claimer target chosen_index target_believes (h : store) (g : Game.t) :
  Game.play_turn claimer target chosen_index target_believes (h, g) =
    match Game.reveal_next_card g with
    | (Ok None, g') => (Raise (RuntimeError "No more cards in the pyramid"), (h, g'))
    | (Raise e, g') => (Raise e, (h, g'))
    | (Ok (Some card), g') =>
        match claimer, target, chosen_index with
        | Some claimer, Some target, Some chosen_index =>
            if target_believes then
              (in_store (on_player target (Player.drink 1));;
               tp ← in_store (on_player target get);
               mret (card, Some (Player.name tp +:+ " drinkt 1"))) (h, g')
            else
              (shown ← in_store (on_player claimer (Player.reveal chosen_index));
               if bool_decide (rank shown = rank card) then
                 in_store (on_player target (Player.drink 2));;
                 tp ← in_store (on_player target get);
                 mret (card, Some (Player.name tp +:+ " drinkt 2"))
               else
                 in_store (on_player claimer (Player.drink 2));;
                 cp ← in_store (on_player claimer get);
                 mret (card, Some (Player.name cp +:+ " drinkt 2"))) (h, g')
        | _, _, _ => (Ok (card, None), (h, g'))
        end
    end.
Proof.
  unfold Game.play_turn. unfold mbind at 1, M_bind at 1, bind at 1.
  rewrite in_local_run. simpl.
  destruct (Game.reveal_next_card g) as [[[card|]|e] g']; simpl; try done.
  by destruct claimer, target, chosen_index, target_believes.
Qed.

Lemma play_turn_exhausted claimer target chosen_index target_believes h g :
  Pyramid.exhausted (Game.pyramid g) = true ->
  Game.play_turn claimer target chosen_index target_believes (h, g) =
    (Raise (RuntimeError "No more cards in the pyramid"), (h, g)).
Proof.
  intros Hex. rewrite play_turn_start, reveal_next_card_run, next_card_exhausted by done.
  simpl. by destruct g.
Qed.

Lemma play_turn_pass claimer target chosen_index target_believes h g card :
  fst (Pyramid.next_card (Game.pyramid g)) = Ok (Some card) ->
  claimer = None \/ target = None \/ chosen_index = None ->
  Game.play_turn claimer target chosen_index target_believes (h, g) =
    (Ok (card, None), (h, snd (Game.reveal_next_card g))).
Proof.
  intros Hcard Hnone. rewrite play_turn_start, reveal_next_card_run, Hcard. simpl.
  destruct claimer, target, chosen_index; try done.
  by destruct Hnone as [|[|]].
Qed.

(** A turn with a claim, once the pyramid has shown [card]. *)
Lemma play_turn_claim claimer target chosen_index target_believes h g card :
  fst (Pyramid.next_card (Game.pyramid g)) = Ok (Some card) ->
  Game.play_turn (Some claimer) (Some target) (Some chosen_index) target_believes (h, g) =
    let g' := snd (Game.reveal_next_card g) in
    if target_believes then
      match h !! target with
      | Some tp => (Ok (card, Some (Player.name tp +:+ " drinkt 1")),
                    (<[target := add_drinks 1 tp]> h, g'))
      | None => (Raise InvalidReference, (h, g'))
      end
    else
      match h !! claimer with
      | None => (Raise InvalidReference, (h, g'))
      | Some cp =>
          let h1 := <[claimer := mark_revealed chosen_index cp]> h in
          match py_getitem (Player.hand cp) chosen_index with
          | Raise e => (Raise e, (h1, g'))
          | Ok shown =>
              if bool_decide (rank shown = rank card) then
                match h1 !! target with
                | Some tp => (Ok (card, Some (Player.name tp +:+ " drinkt 2")),
                              (<[target := add_drinks 2 tp]> h1, g'))
                | None => (Raise InvalidReference, (h1, g'))
                end
              else (Ok (card, Some (Player.name cp +:+ " drinkt 2")),
                    (<[claimer := add_drinks 2 (mark_revealed chosen_index cp)]> h, g'))
          end
      end.
Proof.
  intros Hcard. rewrite play_turn_start, reveal_next_card_run, Hcard. simpl.
  unfold mbind, M_bind, bind. destruct target_believes.
  - rewrite in_store_run. destruct (h !! target) as [tp|] eqn:Ht.
    + rewrite (on_player_run _ _ _ _ Ht). simpl.
      rewrite in_store_run, (on_player_get _ _ (add_drinks 1 tp)) by apply lookup_insert_eq.
      reflexivity.
    + by rewrite on_player_invalid.
  - rewrite in_store_run. destruct (h !! claimer) as [cp|] eqn:Hc.
    2: { by rewrite on_player_invalid. }
    rewrite (on_player_run _ _ _ _ Hc), reveal_run. simpl.
    destruct (py_getitem (Player.hand cp) chosen_index) as [shown|e]; [|done].
    case_bool_decide.
    + rewrite in_store_run. simpl.
      destruct (<[claimer := mark_revealed chosen_index cp]> h !! target) as [tp|] eqn:Ht.
      * rewrite (on_player_run _ _ _ _ Ht). simpl.
        rewrite in_store_run, (on_player_get _ _ (add_drinks 2 tp))
          by apply lookup_insert_eq.
        reflexivity.
      * by rewrite on_player_invalid.
    + rewrite in_store_run,
        (on_player_run _ _ _ (mark_revealed chosen_index cp)) by apply lookup_insert_eq.
      simpl. rewrite insert_insert_eq.
      rewrite in_store_run,
        (on_player_get _ _ (add_drinks 2 (mark_revealed chosen_index cp)))
        by apply lookup_insert_eq.
      reflexivity.
Qed.

Lemma py_getitem_raises {A} (l : list A) (i : Z) e :
  py_getitem l i = Raise e -> e = IndexError "list index out of range".
Proof.
  unfold py_getitem.
  destruct ((_ <? 0) || _); [congruence|]. destruct (l !! _); congruence.
Qed.

Lemma next_card_raises (p p' : Pyramid.t) e :
  Pyramid.next_card p = (Raise e, p') -> e = IndexError "list index out of range".
Proof.
  destruct (Pyramid.exhausted p) eqn:Hex.
  { by rewrite next_card_exhausted. }
  unfold Pyramid.exhausted in Hex.
  unfold Pyramid.next_card, mbind, M_bind, bind, get, put, lift_result. simpl.
  rewrite Hex.
  destruct (py_getitem (Pyramid.rows p) (Pyramid._row p)) as [row|e1] eqn:Hrow.
  2: { intros [= <- _]. by eapply py_getitem_raises. }
  destruct (py_getitem row (Pyramid._col p)) as [card|e2] eqn:Hcard.
  2: { intros [= <- _]. by eapply py_getitem_raises. }
  simpl. rewrite ?Hrow. by destruct (len row <=? Pyramid._col p + 1).
Qed.

Lemma card_at_in_range (hand : list Card) (index : Z) :
  - len hand <= index < len hand -> exists c, py_getitem hand index = Ok c.
Proof.
  intros Hi. destruct (py_getitem hand index) as [c|e] eqn:E; [eauto|].
  apply py_getitem_Raise in E. lia.
Qed.

(** C5. With [target_believes=True] on a pyramid that is not exhausted, the
    turn succeeds, the target's drinks grow by exactly 1 and the claimer's hand
    and revealed set stay as they were, whatever [chosen_index] is; no other
    player changes. *)
Theorem play_turn_believes (h : store) (g : Game.t) (claimer target : loc)
    (chosen_index : Z) (cp tp : Player.t) :
  Pyramid.wf (Game.pyramid g) = true ->
  Pyramid.exhausted (Game.pyramid g) = false ->
  h !! claimer = Some cp -> h !! target = Some tp ->
  exists card h' g',
    Game.play_turn (Some claimer) (Some target) (Some chosen_index) true (h, g) =
      (Ok (card, Some (Player.name tp +:+ " drinkt 1")), (h', g')) /\
    Pyramid.peek (Game.pyramid g) = Some card /\
    drinks_of h' target = Some (Player.drinks_taken tp + 1) /\
    hand_of h' claimer = Some (Player.hand cp) /\
    revealed_of h' claimer = Some (Player.revealed_indices cp) /\
    (forall l, l <> target -> h' !! l = h !! l).
Proof.
  intros Hwf Hex Hc Ht.
  destruct (next_card_wf _ Hwf Hex) as (card & Hpeek & Hfst & _).
  exists card. eexists. eexists.
  rewrite (play_turn_claim _ _ _ _ _ _ _ Hfst), Ht. cbv zeta.
  split; [reflexivity|]. split; [done|].
  unfold drinks_of, hand_of, revealed_of. split; [by rewrite lookup_insert_eq|].
  destruct (decide (claimer = target)) as [->|Hne].
  - rewrite lookup_insert_eq. simpl. rewrite Ht in Hc. injection Hc as <-.
    repeat split; try done. intros l Hl. by rewrite lookup_insert_ne.
  - rewrite lookup_insert_ne, Hc by done.
    repeat split; try done. intros l Hl. by rewrite lookup_insert_ne.
Qed.

Lemma play_turn_believes_witness :
  exists card h' g',
    Game.play_turn (Some 0%nat) (Some 1%nat) (Some 7) true (sample_store, sample_game) =
      (Ok (card, Some (Player.name bob +:+ " drinkt 1")), (h', g')) /\
    Pyramid.peek (Game.pyramid sample_game) = Some card /\
    drinks_of h' 1%nat = Some (Player.drinks_taken bob + 1) /\
    hand_of h' 0%nat = Some (Player.hand alice) /\
    revealed_of h' 0%nat = Some (Player.revealed_indices alice) /\
    (forall l, l <> 1%nat -> h' !! l = sample_store !! l).
Proof.
  apply (play_turn_believes sample_store sample_game 0%nat 1%nat 7 alice bob);
    reflexivity.
Defined.

(** C1, as the specification states it, fails.  With [chosen_index = 4] on a
    hand of four cards the turn raises [IndexError] and nobody drinks; and
    when claimer and target are the same player and the ranks match, that
    player drinks 2, so the claimer's drinks do not stay unchanged. *)
Lemma challenge_resolved_fails :
  (fst (Game.play_turn (Some 0%nat) (Some 1%nat) (Some 4) false
          (sample_store, sample_game))
     = Raise (IndexError "list index out of range") /\
   ~ challenge_resolved sample_store sample_game 0%nat 1%nat 4
       alice bob (mkCard "A" "spades")) /\
  (drinks_of (fst (snd (Game.play_turn (Some 0%nat) (Some 0%nat) (Some 0) false
                          (sample_store, sample_game)))) 0%nat = Some 2 /\
   ~ challenge_resolved sample_store sample_game 0%nat 0%nat 0
       alice alice (mkCard "A" "spades")).
Proof.
  split; split.
  - reflexivity.
  - unfold challenge_resolved.
    rewrite (play_turn_claim 0%nat 1%nat 4 false sample_store sample_game
               (mkCard "A" "spades") eq_refl).
    intros [[outcome Hr] _]. discriminate Hr.
  - reflexivity.
  - unfold challenge_resolved.
    rewrite (play_turn_claim 0%nat 0%nat 0 false sample_store sample_game
               (mkCard "A" "spades") eq_refl).
    intros (_ & _ & [_ Hd] & _). discriminate Hd.
Qed.

(** C1, amended.  When claimer and target are two different players and
    [chosen_index] denotes a card of the claimer's hand
    ([-len(hand) <= chosen_index < len(hand)], a negative index counting from
    the end), a challenged turn on a pyramid that is not exhausted reveals the
    next pyramid card, makes the target drink exactly 2 and the claimer
    nothing if the ranks are equal, the claimer exactly 2 and the target
    nothing otherwise, and adds [chosen_index] to the claimer's revealed
    set. *)
Theorem play_turn_challenge (h : store) (g : Game.t) (claimer target : loc)
    (chosen_index : Z) (cp tp : Player.t) (card : Card) :
  Pyramid.wf (Game.pyramid g) = true ->
  Pyramid.exhausted (Game.pyramid g) = false ->
  h !! claimer = Some cp -> h !! target = Some tp ->
  Pyramid.peek (Game.pyramid g) = Some card ->
  claimer <> target ->
  - len (Player.hand cp) <= chosen_index < len (Player.hand cp) ->
  challenge_resolved h g claimer target chosen_index cp tp card.
Proof.
  intros Hwf Hex Hc Ht Hpeek Hne Hidx.
  destruct (next_card_wf _ Hwf Hex) as (card' & Hpeek' & Hfst & _).
  rewrite Hpeek in Hpeek'. injection Hpeek' as <-.
  destruct (card_at_in_range _ _ Hidx) as [shown Hshown].
  unfold challenge_resolved, card_at.
  rewrite (play_turn_claim _ _ _ _ _ _ _ Hfst), Hc, Hshown. cbv zeta.
  rewrite lookup_insert_ne, Ht by done. simpl.
  rewrite reveal_next_card_run.
  unfold drinks_of, revealed_of.
  destruct (decide (rank shown = rank card)) as [Heq|Hneq].
  - rewrite !bool_decide_eq_true_2 by congruence.
    rewrite lookup_insert_eq, lookup_insert_ne, lookup_insert_eq by done.
    simpl. repeat split; eauto.
  - rewrite !bool_decide_eq_false_2 by congruence.
    rewrite lookup_insert_eq, lookup_insert_ne, Ht by done.
    simpl. repeat split; eauto.
Qed.

Lemma play_turn_challenge_witness :
  challenge_resolved sample_store sample_game 0%nat 1%nat (-4)
    alice bob (mkCard "A" "spades").
Proof.
  apply play_turn_challenge; try reflexivity; [discriminate | vm_compute].
  split; [discriminate | reflexivity].
Defined.

(** Every way a turn can go, read off the state it starts from. *)
Ltac turn_cases h g claimer target chosen_index target_believes :=
  let Hex := fresh "Hex" in
  let Hnext := fresh "Hnext" in
  destruct (Pyramid.exhausted (Game.pyramid g)) eqn:Hex;
  [ rewrite (play_turn_exhausted claimer target chosen_index target_believes h g Hex)
  | destruct (Pyramid.next_card (Game.pyramid g)) as [[[?card|]|?e] ?p'] eqn:Hnext;
    [ pose proof (f_equal fst Hnext) as ?Hfst; simpl in *;
      destruct claimer as [?c|], target as [?t|], chosen_index as [?i|];
      [ rewrite (play_turn_claim _ _ _ target_believes h g _ ltac:(eassumption));
        cbv zeta
      | rewrite (play_turn_pass _ _ _ target_believes h g _ ltac:(eassumption))
          by tauto ..]
    | apply next_card_None_exhausted in Hnext; congruence
    | rewrite play_turn_start, reveal_next_card_run, Hnext; simpl;
      pose proof (next_card_raises _ _ _ Hnext);
      pose proof (next_card_fails_unchanged _ _ _ Hnext); subst ] ].

(** C8. [play_turn] raises its "no more cards" error exactly when the pyramid
    is already exhausted.  Whenever it returns, it returns the card
    [reveal_next_card] gives on the same game together with an optional
    outcome, and the outcome is absent exactly when claimer, target or
    [chosen_index] is absent.  A pass turn on a pyramid that is not exhausted
    does return, without an outcome and without touching any player. *)
Theorem play_turn_result (claimer target : option loc) (chosen_index : option Z)
    (target_believes : bool) (h : store) (g : Game.t) :
  ((exists msg, fst (Game.play_turn claimer target chosen_index target_believes (h, g))
                = Raise (RuntimeError msg))
   <-> Pyramid.exhausted (Game.pyramid g) = true) /\
  (forall card outcome,
     fst (Game.play_turn claimer target chosen_index target_believes (h, g))
       = Ok (card, outcome) ->
     fst (Game.reveal_next_card g) = Ok (Some card) /\
     (outcome = None <-> claimer = None \/ target = None \/ chosen_index = None)) /\
  (Pyramid.wf (Game.pyramid g) = true ->
   Pyramid.exhausted (Game.pyramid g) = false ->
   claimer = None \/ target = None \/ chosen_index = None ->
   exists card,
     Pyramid.peek (Game.pyramid g) = Some card /\
     Game.play_turn claimer target chosen_index target_believes (h, g)
       = (Ok (card, None), (h, snd (Game.reveal_next_card g)))).
Proof.
  split; [|split].
  - split.
    + intros [msg Hmsg]. revert Hmsg.
      turn_cases h g claimer target chosen_index target_believes; try done.
      destruct target_believes.
      * destruct (h !! t); discriminate.
      * destruct (h !! c) as [cp|]; [|discriminate]. simpl.
        destruct (py_getitem _ _) as [shown|e] eqn:Hget.
        -- case_bool_decide; [|discriminate]. destruct (_ !! t); discriminate.
        -- apply py_getitem_raises in Hget as ->. discriminate.
    + intros Hex. rewrite play_turn_exhausted by done. eauto.
  - intros card outcome.
    rewrite reveal_next_card_run. simpl.
    turn_cases h g claimer target chosen_index target_believes; try done.
    + destruct target_believes.
      * destruct (h !! t); [|discriminate]. intros [= <- <-].
        split; [done|]. split; [discriminate | intros [|[|]]; discriminate].
      * destruct (h !! c) as [cp|]; [|discriminate]. simpl.
        destruct (py_getitem _ _) as [shown|e]; [|discriminate].
        case_bool_decide.
        -- destruct (_ !! t); [|discriminate]. intros [= <- <-].
           split; [done|]. split; [discriminate | intros [|[|]]; discriminate].
        -- intros [= <- <-].
           split; [done|]. split; [discriminate | intros [|[|]]; discriminate].
    + intros [= <- <-]. split; [done|]. split; [tauto | done].
    + intros [= <- <-]. split; [done|]. split; [tauto | done].
    + intros [= <- <-]. split; [done|]. split; [tauto | done].
    + intros [= <- <-]. split; [done|]. split; [tauto | done].
    + intros [= <- <-]. split; [done|]. split; [tauto | done].
    + intros [= <- <-]. split; [done|]. split; [tauto | done].
    + intros [= <- <-]. split; [done|]. split; [tauto | done].
  - intros Hwf Hex Hpass.
    destruct (next_card_wf _ Hwf Hex) as (card & Hpeek & Hfst & _).
    exists card. split; [done|]. by apply play_turn_pass.
Qed.

Lemma play_turn_result_witness :
  exists card,
    Pyramid.peek (Game.pyramid sample_game) = Some card /\
    Game.play_turn None (Some 1%nat) (Some 0) false (sample_store, sample_game)
      = (Ok (card, None), (sample_store, snd (Game.reveal_next_card sample_game))).
Proof.
  apply (proj2 (proj2 (play_turn_result None (Some 1%nat) (Some 0) false
                         sample_store sample_game)));
    [reflexivity | reflexivity | by left].
Defined.

(** ** Setting up a game *)

Lemma mapM_cons {S A B} (f : A -> M S B) (x : A) (l : list A) :
  mapM f (x :: l) = (y ← f x; ys ← mapM f l; mret (y :: ys)).
Proof. reflexivity. Qed.

(** The new players are distinct objects at references not in use before,
    every one with the name given for it, an empty hand and no drinks. *)
Lemma new_players_run (names : list string) (h : store) :
  exists ls h',
    mapM new_player names h = (Ok ls, h') /\
    length ls = length names /\ NoDup ls /\
    Forall (fun l => h !! l = None) ls /\
    (forall l, l ∉ ls -> h' !! l = h !! l) /\
    (forall i l, ls !! i = Some l ->
       exists name, names !! i = Some name /\ h' !! l = Some (Player.__init__ name)).
Proof.
  revert h. induction names as [|name names IH]; intros h.
  { exists [], h. repeat split; try done. constructor. }
  set (l0 := fresh (dom h)).
  assert (h !! l0 = None) as Hfresh.
  { apply not_elem_of_dom. apply is_fresh. }
  destruct (IH (<[l0 := Player.__init__ name]> h)) as (ls & h' & Hrun & Hlen & Hnd & Hnew & Hold & Hget).
  assert (l0 ∉ ls) as Hl0.
  { intros Hin. rewrite Forall_forall in Hnew. specialize (Hnew _ Hin).
    by rewrite lookup_insert_eq in Hnew. }
  exists (l0 :: ls), h'. split; [|split; [|split; [|split; [|split]]]].
  - rewrite mapM_cons.
    rewrite (bind_Ok _ _ h l0 (<[l0 := Player.__init__ name]> h)) by reflexivity.
    by rewrite (bind_Ok _ _ _ _ _ Hrun).
  - simpl. by rewrite Hlen.
  - by constructor.
  - constructor; [done|]. eapply Forall_impl; [exact Hnew|].
    intros l Hl. simpl in Hl. destruct (decide (l0 = l)) as [->|Hne].
    + by rewrite lookup_insert_eq in Hl.
    + by rewrite lookup_insert_ne in Hl.
  - intros l Hl. apply not_elem_of_cons in Hl as [Hne Hl].
    rewrite (Hold l Hl). by rewrite lookup_insert_ne.
  - intros [|i] l Hi; simpl in Hi.
    + injection Hi as <-. exists name. split; [done|].
      rewrite (Hold l0 Hl0). apply lookup_insert_eq.
    + by apply Hget.
Qed.

Lemma receive_run (cards : list Card) (p : Player.t) :
  Player.receive cards p =
    (Ok tt, Player.mk (Player.name p) (Player.hand p ++ cards)
                      (Player.revealed_indices p) (Player.drinks_taken p)).
Proof. reflexivity. Qed.

(** The dealing loop gives the [i]-th player the [i]-th group of four cards
    from the top of the deck. *)
Lemma deal_hands_run (ls : list loc) (h : store) (cards : list Card) :
  NoDup ls -> Forall (fun l => is_Some (h !! l)) ls ->
  4 * len ls <= len cards ->
  exists h',
    Game.deal_hands ls (h, Deck.mk cards) =
      (Ok tt, (h', Deck.mk (drop (4 * length ls) cards))) /\
    (forall l, l ∉ ls -> h' !! l = h !! l) /\
    (forall i l p, ls !! i = Some l -> h !! l = Some p ->
       h' !! l = Some (Player.mk (Player.name p)
                         (Player.hand p ++ take 4 (drop (4 * i) cards))
                         (Player.revealed_indices p) (Player.drinks_taken p))).
Proof.
  revert h cards. induction ls as [|l ls IH]; intros h cards Hnd Hlive Hlen.
  { exists h. repeat split; try done. }
  apply NoDup_cons in Hnd as [Hl Hnd]. apply Forall_cons in Hlive as [[p Hp] Hlive].
  unfold len in Hlen. simpl in Hlen.
  set (p1 := Player.mk (Player.name p) (Player.hand p ++ take 4 cards)
                       (Player.revealed_indices p) (Player.drinks_taken p)).
  destruct (IH (<[l := p1]> h) (drop 4 cards) Hnd) as (h' & Hrun & Hold & Hget).
  { eapply Forall_impl; [exact Hlive|]. intros l' Hl'. simpl.
    destruct (decide (l = l')) as [->|Hne];
      [by rewrite lookup_insert_eq | by rewrite lookup_insert_ne]. }
  { unfold len. rewrite length_drop. lia. }
  exists h'. split; [|split].
  - simpl Game.deal_hands.
    rewrite (bind_Ok _ _ _ (take 4 cards) (h, Deck.mk (drop 4 cards))).
    2: { by rewrite in_local_run, deal_prefix by (simpl; unfold len; lia). }
    rewrite (bind_Ok _ _ _ tt (<[l := p1]> h, Deck.mk (drop 4 cards))).
    2: { by rewrite in_store_run, (on_player_run _ _ _ _ Hp), receive_run. }
    rewrite Hrun, drop_drop. do 3 f_equal. f_equal. simpl. lia.
  - intros l' Hl'. apply not_elem_of_cons in Hl' as [Hne Hl'].
    rewrite (Hold l' Hl'). by rewrite lookup_insert_ne.
  - intros [|i] l' p' Hi Hp'; simpl in Hi.
    + injection Hi as <-. rewrite Hp in Hp'. injection Hp' as <-.
      rewrite (Hold l Hl), lookup_insert_eq. by rewrite Nat.mul_0_r, drop_0.
    + assert (l ≠ l') as Hne.
      { intros ->. apply Hl. eapply list_elem_of_lookup_2, Hi. }
      rewrite (Hget i l' p' Hi) by (by rewrite lookup_insert_ne).
      rewrite drop_drop. by replace (4 * S i)%nat with (4 + 4 * i)%nat by lia.
Qed.

Lemma take_len {A} (l : list A) : take (Z.to_nat (len l)) l = l.
Proof. unfold len. by rewrite Nat2Z.id, firstn_all. Qed.

Lemma drop_len {A} (l : list A) : drop (Z.to_nat (len l)) l = [].
Proof. unfold len. by rewrite Nat2Z.id, drop_all. Qed.

(** A construction with 2 to 12 names succeeds; this is the game and the
    store it yields. *)
Lemma init_run (shuffle : list Card -> list Card) (names : list string) (h : store) :
  (forall l, Permutation (shuffle l) l) ->
  2 <= len names <= 12 ->
  let deck := shuffle Deck.fresh_cards in
  let R := (Z.sqrt (8 * (52 - 4 * len names) + 1) - 1) / 2 in
  let total := Z.to_nat (R * (R + 1) / 2) in
  exists ls h',
    Game.__init__ shuffle names h =
      (Ok (Game.mk ls (Pyramid.__init__ (take total (drop (4 * length names) deck)) R)
                   (drop total (drop (4 * length names) deck))), h') /\
    length ls = length names /\ NoDup ls /\
    Forall (fun l => h !! l = None) ls /\
    (forall l, l ∉ ls -> h' !! l = h !! l) /\
    (forall i l, ls !! i = Some l ->
       exists name, names !! i = Some name /\
         h' !! l = Some (Player.mk name (take 4 (drop (4 * i) deck)) ∅ 0)).
Proof.
  intros Hperm HN deck R total.
  assert (length deck = 52%nat) as Hdeck.
  { unfold deck. by rewrite (Permutation_length (Hperm _)). }
  destruct (new_players_run names h) as (ls & h1 & Hnew & Hlen & Hnd & Hfresh & Hold & Hget).
  destruct (deal_hands_run ls h1 deck Hnd) as (h' & Hdeal & Hold' & Hget').
  { apply Forall_forall. intros l Hl.
    apply list_elem_of_lookup in Hl as [i Hi].
    destruct (Hget i l Hi) as (name & _ & ->). eauto. }
  { unfold len in *. lia. }
  assert (len (drop (4 * length names) deck) = 52 - 4 * len names) as Hrem.
  { unfold len in *. rewrite length_drop. lia. }
  destruct (max_rows_bounds (52 - 4 * len names) ltac:(lia)) as (HR0 & HRle & _).
  fold R in HR0, HRle. pose proof (triangle_even R) as Heven.
  assert (0 <= R * (R + 1) / 2 <= len (drop (4 * length names) deck)) as Htotal.
  { rewrite Hrem. lia. }
  exists ls, h'. split; [|split; [done|split; [done|split; [done|split]]]].
  - unfold Game.__init__.
    destruct (Z.leb_spec 2 (len names)), (Z.leb_spec (len names) 12); try lia.
    change (negb (true && true)) with false. cbv iota.
    rewrite (bind_Ok _ _ _ _ _ Hnew).
    rewrite (bind_Ok _ _ h1 (Deck.mk Deck.fresh_cards) h1) by reflexivity.
    unfold with_local. fold deck.
    rewrite (bind_Ok _ _ _ _ _ Hdeal). rewrite Hlen.
    rewrite (bind_Ok _ _ _ (Deck.mk (drop (4 * length names) deck))
               (h', Deck.mk (drop (4 * length names) deck))) by reflexivity.
    cbv beta. unfold Deck.__len__. cbn [Deck.cards]. rewrite Hrem.
    rewrite (bind_Ok _ _ _ R (h', Deck.mk (drop (4 * length names) deck))).
    2: { unfold lift_result, _max_pyramid_rows, isqrt.
         by destruct (Z.ltb_spec (8 * (52 - 4 * len names) + 1) 0); [lia|]. }
    rewrite (bind_Ok _ _ _ (take total (drop (4 * length names) deck))
               (h', Deck.mk (drop total (drop (4 * length names) deck)))).
    2: { by rewrite in_local_run, (deal_prefix _ (Deck.mk _) Htotal). }
    rewrite (bind_Ok _ _ _ (Deck.mk (drop total (drop (4 * length names) deck)))
               (h', Deck.mk (drop total (drop (4 * length names) deck)))) by reflexivity.
    rewrite (bind_Ok _ _ _ (drop total (drop (4 * length names) deck))
               (h', Deck.mk [])).
    2: { rewrite in_local_run, deal_prefix by (cbn [Deck.cards]; unfold len; lia).
         cbn [Deck.cards fst snd]. by rewrite take_len, drop_len. }
    reflexivity.
  - intros l Hl. by rewrite (Hold' l Hl), (Hold l Hl).
  - intros i l Hi. destruct (Hget i l Hi) as (name & Hname & Hl).
    exists name. split; [done|]. by rewrite (Hget' i l _ Hi Hl).
Qed.

Lemma init_invalid_count (shuffle : list Card -> list Card) (names : list string)
    (h : store) :
  len names < 2 \/ 12 < len names ->
  Game.__init__ shuffle names h =
    (Raise (ValueError "minstens 2, max 12 spelers voor 4 kaarten pp"), h).
Proof.
  intros HN. unfold Game.__init__.
  by destruct (Z.leb_spec 2 (len names)), (Z.leb_spec (len names) 12); try lia.
Qed.

(** C2. With 2 to 12 names the construction succeeds: it yields as many
    players as names, distinct and each holding exactly 4 cards, a pyramid of
    [R] rows (of sizes R, ..., 1) where [R] is the largest integer with
    [R(R+1)/2 <= 52 - 4N], and a rest stack of [52 - 4N - R(R+1)/2] cards.
    With fewer than 2 or more than 12 names it fails with a [ValueError]
    that says so. *)
Theorem game_init_counts (shuffle : list Card -> list Card) (names : list string)
    (h : store) :
  (forall l, Permutation (shuffle l) l) ->
  (2 <= len names <= 12 ->
   exists g h' R,
     Game.__init__ shuffle names h = (Ok g, h') /\
     len (Game.players g) = len names /\ NoDup (Game.players g) /\
     Forall (fun l => exists p, h' !! l = Some p /\ len (Player.hand p) = 4)
            (Game.players g) /\
     len (Pyramid.rows (Game.pyramid g)) = R /\
     map len (Pyramid.rows (Game.pyramid g)) = range_down R /\
     largest_rows (52 - 4 * len names) R /\
     len (Game.rest_stapel g) = 52 - 4 * len names - R * (R + 1) / 2) /\
  (len names < 2 \/ 12 < len names ->
   Game.__init__ shuffle names h =
     (Raise (ValueError "minstens 2, max 12 spelers voor 4 kaarten pp"), h)).
Proof.
  intros Hperm. split; [|apply init_invalid_count].
  intros HN.
  destruct (init_run shuffle names h Hperm HN)
    as (ls & h' & Hrun & Hlen & Hnd & _ & _ & Hget).
  set (deck := shuffle Deck.fresh_cards) in *.
  set (R := (Z.sqrt (8 * (52 - 4 * len names) + 1) - 1) / 2) in *.
  assert (length deck = 52%nat) as Hdeck.
  { unfold deck. by rewrite (Permutation_length (Hperm _)). }
  destruct (max_pyramid_rows_bounds_largest (52 - 4 * len names) ltac:(lia))
    as (HR0 & Hle & Hlargest).
  fold R in HR0, Hle, Hlargest.
  assert (0 <= R * (R + 1) / 2) as Hnonneg.
  { pose proof (triangle_even R). nia. }
  clearbody R deck.
  eexists. exists h', R. split; [exact Hrun|].
  cbn [Game.players Game.pyramid Game.rest_stapel].
  destruct (pyramid_init_spec
              (take (Z.to_nat (R * (R + 1) / 2)) (drop (4 * length names) deck)) R HR0)
    as (Hsizes & _); [|cbv zeta in Hsizes].
  { unfold len in *. rewrite length_take, length_drop.
    set (T := R * (R + 1) / 2) in *. clearbody T. lia. }
  split; [unfold len; by rewrite Hlen|]. split; [done|]. split; [|split; [|split; [|split]]].
  - apply Forall_forall. intros l Hl. apply list_elem_of_lookup in Hl as [i Hi].
    destruct (Hget i l Hi) as (name & Hname & Hl). eexists. split; [exact Hl|].
    cbn [Player.hand].
    apply lookup_lt_Some in Hname.
    unfold len in *. rewrite length_take, length_drop. lia.
  - apply (f_equal (@length Z)) in Hsizes.
    rewrite length_map, range_down_length in Hsizes. unfold len. lia.
  - done.
  - done.
  - unfold len in *. rewrite !length_drop. lia.
Qed.

Lemma game_init_counts_witness :
  exists g h' R,
    Game.__init__ id ["A"; "B"; "C"] ∅ = (Ok g, h') /\
    len (Game.players g) = 3 /\ NoDup (Game.players g) /\
    Forall (fun l => exists p, h' !! l = Some p /\ len (Player.hand p) = 4)
           (Game.players g) /\
    len (Pyramid.rows (Game.pyramid g)) = R /\
    map len (Pyramid.rows (Game.pyramid g)) = range_down R /\
    largest_rows (52 - 4 * 3) R /\
    len (Game.rest_stapel g) = 52 - 4 * 3 - R * (R + 1) / 2.
Proof.
  refine (proj1 (game_init_counts id ["A"; "B"; "C"] ∅ _) _);
    [intros l; reflexivity | vm_compute; split; discriminate].
Defined.

(** ** Failing operations *)

Lemma init_fails_unchanged (shuffle : list Card -> list Card) (names : list string)
    (h : store) :
  (forall l, Permutation (shuffle l) l) ->
  fails_unchanged (Game.__init__ shuffle names) h.
Proof.
  intros Hperm e h' Hrun.
  destruct (decide (2 <= len names <= 12)) as [HN|HN].
  - destruct (init_run shuffle names h Hperm HN) as (ls & h1 & Hok & _).
    rewrite Hok in Hrun. discriminate Hrun.
  - rewrite init_invalid_count in Hrun by lia. by injection Hrun as _ <-.
Qed.

(** C7, as the specification states it, fails: [reveal(4)] on a hand of four
    cards raises [IndexError] after it has put 4 into the revealed set, so
    the player is not as before. *)
Lemma reveal_fails_after_marking :
  Player.reveal 4 alice =
    (Raise (IndexError "list index out of range"), mark_revealed 4 alice) /\
  mark_revealed 4 alice <> alice /\
  ~ fails_unchanged (Player.reveal 4) alice.
Proof.
  assert (mark_revealed 4 alice <> alice) as Hne.
  { intros Heq. apply (f_equal Player.revealed_indices) in Heq. simpl in Heq.
    assert (4 ∈ (∅ : gset Z)) as Hin by (rewrite <- Heq; set_solver).
    set_solver. }
  split; [reflexivity|]. split; [done|].
  intros Hun. apply Hne. by eapply Hun.
Qed.

(** C7, amended.  A failing [Game] construction, a failing [Deck.deal] and a
    [play_turn] that fails at the reveal step leave the state as it was.
    A failing [Player.reveal], which is one whose index is out of range,
    leaves the player's name, hand and drinks as they were.  A [play_turn] on
    live players that fails after the reveal step is a challenged turn with
    [chosen_index] out of range: it has advanced the pyramid cursor, and it
    leaves the claimer's name, hand and drinks and every other player as they
    were. *)
Theorem failure_effects :
  (forall shuffle names h,
     (forall l, Permutation (shuffle l) l) ->
     fails_unchanged (Game.__init__ shuffle names) h) /\
  (forall n d, fails_unchanged (Deck.deal n) d) /\
  (forall index p e p',
     Player.reveal index p = (Raise e, p') ->
     same_but_revealed p p' /\
     (index < - len (Player.hand p) \/ len (Player.hand p) <= index)) /\
  (forall claimer target chosen_index target_believes h g e h' g',
     (forall l, claimer = Some l \/ target = Some l -> is_Some (h !! l)) ->
     Game.play_turn claimer target chosen_index target_believes (h, g)
       = (Raise e, (h', g')) ->
     (h' = h /\ g' = g /\
      (Pyramid.wf (Game.pyramid g) = true ->
       Pyramid.exhausted (Game.pyramid g) = true /\
       e = RuntimeError "No more cards in the pyramid")) \/
     (exists c i cp cp' card,
        claimer = Some c /\ chosen_index = Some i /\ target_believes = false /\
        h !! c = Some cp /\
        (i < - len (Player.hand cp) \/ len (Player.hand cp) <= i) /\
        fst (Game.reveal_next_card g) = Ok (Some card) /\
        g' = snd (Game.reveal_next_card g) /\
        h' !! c = Some cp' /\ same_but_revealed cp cp' /\
        (forall l, l <> c -> h' !! l = h !! l))).
Proof.
  split; [|split; [|split]].
  - intros. by apply init_fails_unchanged.
  - intros. apply deal_fails_unchanged.
  - intros index p e p' Hrun.
    destruct (reveal_fails index p e p' Hrun) as [-> Hrange]. by split.
  - intros claimer target chosen_index target_believes h g e h' g' Hlive.
    turn_cases h g claimer target chosen_index target_believes; try done.
    + intros [= <- <- <-]. left. by destruct g.
    + destruct (Hlive c ltac:(by left)) as [cp Hc].
      destruct (Hlive t ltac:(by right)) as [tp Ht].
      rewrite Hc, Ht. destruct target_believes; [done|]. cbv zeta.
      destruct (py_getitem (Player.hand cp) i) as [shown|e'] eqn:Hget.
      * case_bool_decide; [|done].
        destruct (decide (c = t)) as [->|Hne].
        -- by rewrite lookup_insert_eq.
        -- by rewrite lookup_insert_ne, Ht.
      * intros [= <- <- <-]. right. exists c, i, cp, (mark_revealed i cp), card.
        split; [done|]. split; [done|]. split; [done|]. split; [done|].
        split; [by eapply py_getitem_Raise|].
        split; [by rewrite reveal_next_card_run, Hfst|]. split; [done|].
        split; [apply lookup_insert_eq|]. split; [done|].
        intros l Hl. by rewrite lookup_insert_ne.
    + intros [= <- <- <-]. left. destruct g as [ps py rs]. simpl in *.
      split; [done|]. split; [done|].
      intros Hwf. destruct (next_card_wf _ Hwf Hex) as (c & _ & Hc & _).
      rewrite Hnext in Hc. discriminate Hc.
Qed.

Lemma failure_effects_witness :
  same_but_revealed alice (mark_revealed 4 alice) /\
  (4 < - len (Player.hand alice) \/ len (Player.hand alice) <= 4).
Proof.
  exact (proj1 (proj2 (proj2 failure_effects)) 4 alice
           (IndexError "list index out of range") (mark_revealed 4 alice) eq_refl).
Defined.

(** ** Saving and loading *)

Lemma mapM_result_map {A B C} (f : B -> result C) (g : A -> B) (k : A -> C)
    (l : list A) :
  (forall x, f (g x) = Ok (k x)) -> mapM f (map g l) = Ok (map k l).
Proof.
  intros Hfg. induction l as [|x l IH]; [reflexivity|].
  simpl map. change (mapM f (g x :: map g l))
    with (y ← f (g x); ys ← mapM f (map g l); mret (y :: ys)).
  by rewrite Hfg, IH.
Qed.

Lemma card_from_to_tuple (c : Card) : _card_from_tuple (_card_to_tuple c) = Ok c.
Proof. by destruct c. Qed.

Lemma cards_from_to_tuples (cs : list Card) :
  mapM _card_from_tuple (map _card_to_tuple cs) = Ok cs.
Proof.
  rewrite (mapM_result_map _ _ id) by apply card_from_to_tuple. by rewrite map_id.
Qed.

Lemma player_json_name (p : Player.t) :
  (n ← json_getitem (player_to_json p) "name"; as_str n) = Ok (Player.name p).
Proof. reflexivity. Qed.

Lemma player_json_hand (p : Player.t) :
  (h ← json_getitem (player_to_json p) "hand"; l ← as_list h; mapM _card_from_tuple l)
  = Ok (Player.hand p).
Proof.
  change (mapM _card_from_tuple (map _card_to_tuple (Player.hand p)) = Ok (Player.hand p)).
  apply cards_from_to_tuples.
Qed.

Lemma player_json_revealed (p : Player.t) :
  (r ← json_getitem (player_to_json p) "revealed"; l ← as_list r; mapM as_int l)
  = Ok (elements (Player.revealed_indices p)).
Proof.
  change (mapM as_int (map JInt (elements (Player.revealed_indices p)))
          = Ok (elements (Player.revealed_indices p))).
  rewrite (mapM_result_map _ _ id) by done. by rewrite map_id.
Qed.

Lemma player_json_drinks (p : Player.t) :
  (d ← json_getitem (player_to_json p) "drinks_taken"; as_int d)
  = Ok (Player.drinks_taken p).
Proof. reflexivity. Qed.

(** Reading the players of a game does not change the store. *)
Lemma read_players_run (ls : list loc) (h : store) :
  Forall (fun l => is_Some (h !! l)) ls ->
  exists ps,
    Forall2 (fun l p => h !! l = Some p) ls ps /\
    mapM (fun l => on_player l get) ls h = (Ok ps, h).
Proof.
  induction ls as [|l ls IH]; intros Hlive.
  { exists []. split; [constructor | reflexivity]. }
  apply Forall_cons in Hlive as [[p Hp] Hlive].
  destruct (IH Hlive) as (ps & Hps & Hrun).
  exists (p :: ps). split; [by constructor|].
  rewrite mapM_cons.
  rewrite (bind_Ok _ _ _ _ _ (on_player_get _ _ _ Hp)).
  by rewrite (bind_Ok _ _ _ _ _ Hrun).
Qed.

(** The loop of [load_game] makes every new player equal to the saved one,
    provided the new player already has the saved name. *)
Lemma restore_players_run (ps : list Player.t) (ls : list loc) (h : store) :
  NoDup ls ->
  Forall2 (fun l p => exists q, h !! l = Some q /\ Player.name q = Player.name p) ls ps ->
  exists h',
    restore_players (map player_to_json ps) ls h = (Ok tt, h') /\
    Forall2 (fun l p => h' !! l = Some p) ls ps /\
    (forall l, l ∉ ls -> h' !! l = h !! l).
Proof.
  revert ls h. induction ps as [|p ps IH]; intros ls h Hnd Hall.
  { apply Forall2_nil_inv_r in Hall as ->. exists h. by repeat split. }
  apply Forall2_cons_inv_r in Hall as (l & ls' & (q & Hq & Hname) & Hall & ->).
  apply NoDup_cons in Hnd as [Hl Hnd].
  assert (Forall2 (fun l' p' => exists q', <[l := p]> h !! l' = Some q' /\
                     Player.name q' = Player.name p') ls' ps) as Hall'.
  { clear -Hall Hl.
    induction Hall as [|l' p' ls'' ps' (q' & Hq' & Hn') _ IHall]; constructor.
    - exists q'. split; [|done]. rewrite lookup_insert_ne; [done|].
      intros ->. apply Hl. left.
    - apply IHall. intros Hin. apply Hl. by right. }
  destruct (IH ls' (<[l := p]> h) Hnd Hall') as (h' & Hrun & Hget & Hold).
  exists h'. split; [|split].
  - cbn [restore_players map].
    set (q1 := Player.mk (Player.name q) (Player.hand p)
                 (Player.revealed_indices q) (Player.drinks_taken q)).
    set (q2 := Player.mk (Player.name q) (Player.hand p)
                 (list_to_set (elements (Player.revealed_indices p)))
                 (Player.drinks_taken q)).
    assert (p = Player.mk (Player.name q) (Player.hand p)
                  (list_to_set (elements (Player.revealed_indices p)))
                  (Player.drinks_taken p)) as Hp.
    { rewrite Hname, list_to_set_elements_L. by destruct p. }
    rewrite (bind_Ok _ _ h (Player.hand p) h)
      by (unfold lift_result; by rewrite player_json_hand).
    rewrite (bind_Ok _ _ h tt (<[l := q1]> h))
      by (by rewrite (on_player_run _ _ _ _ Hq)).
    rewrite (bind_Ok _ _ _ (elements (Player.revealed_indices p)) (<[l := q1]> h))
      by (unfold lift_result; by rewrite player_json_revealed).
    rewrite (bind_Ok _ _ _ tt (<[l := q2]> (<[l := q1]> h)))
      by (by rewrite (on_player_run _ _ _ q1) by apply lookup_insert_eq).
    rewrite (bind_Ok _ _ _ (Player.drinks_taken p) (<[l := q2]> (<[l := q1]> h)))
      by (unfold lift_result; by rewrite player_json_drinks).
    rewrite (bind_Ok _ _ _ tt (<[l := p]> (<[l := q2]> (<[l := q1]> h))))
      by (rewrite (on_player_run _ _ _ q2) by apply lookup_insert_eq;
          simpl; by rewrite <- Hp).
    by rewrite !insert_insert_eq.
  - constructor; [|done]. rewrite (Hold l Hl). apply lookup_insert_eq.
  - intros l' Hl'. apply not_elem_of_cons in Hl' as [Hne Hl'].
    rewrite (Hold l' Hl'). by rewrite lookup_insert_ne.
Qed.

Lemma document_players (ps : list Player.t) (g : Game.t) :
  (d ← json_getitem (document ps g) "players"; as_list d) = Ok (map player_to_json ps).
Proof. reflexivity. Qed.

Lemma document_names (ps : list Player.t) :
  mapM (fun p => n ← json_getitem p "name"; as_str n) (map player_to_json ps)
  = Ok (map Player.name ps).
Proof. apply mapM_result_map, player_json_name. Qed.

Lemma document_rows (ps : list Player.t) (g : Game.t) :
  (py ← json_getitem (document ps g) "pyramid"; rs ← json_getitem py "rows";
   l ← as_list rs; mapM as_list l)
  = Ok (map (map _card_to_tuple) (Pyramid.rows (Game.pyramid g))).
Proof.
  change (mapM as_list (map (fun row => JArr (map _card_to_tuple row))
                            (Pyramid.rows (Game.pyramid g)))
          = Ok (map (map _card_to_tuple) (Pyramid.rows (Game.pyramid g)))).
  by apply mapM_result_map.
Qed.

Lemma document_row (ps : list Player.t) (g : Game.t) :
  (py ← json_getitem (document ps g) "pyramid"; pos ← json_getitem py "pos";
   r ← json_getitem pos "row"; as_int r) = Ok (Pyramid._row (Game.pyramid g)).
Proof. reflexivity. Qed.

Lemma document_col (ps : list Player.t) (g : Game.t) :
  (py ← json_getitem (document ps g) "pyramid"; pos ← json_getitem py "pos";
   c ← json_getitem pos "col"; as_int c) = Ok (Pyramid._col (Game.pyramid g)).
Proof. reflexivity. Qed.

Lemma document_rest (ps : list Player.t) (g : Game.t) :
  (rs ← json_getitem (document ps g) "rest_stapel"; l ← as_list rs;
   mapM _card_from_tuple l) = Ok (Game.rest_stapel g).
Proof.
  change (mapM _card_from_tuple (map _card_to_tuple (Game.rest_stapel g))
          = Ok (Game.rest_stapel g)).
  apply cards_from_to_tuples.
Qed.

Lemma rows_from_to_tuples (rows : list (list Card)) :
  mapM (mapM _card_from_tuple) (map (map _card_to_tuple) rows) = Ok rows.
Proof.
  rewrite (mapM_result_map _ _ id) by apply cards_from_to_tuples. by rewrite map_id.
Qed.

Lemma concat_from_to_tuples (rows : list (list Card)) :
  mapM _card_from_tuple (concat (map (map _card_to_tuple) rows)) = Ok (concat rows).
Proof.
  replace (concat (map (map _card_to_tuple) rows))
    with (map _card_to_tuple (concat rows)); [apply cards_from_to_tuples|].
  induction rows as [|r rows IH]; [done|]. simpl. by rewrite map_app, IH.
Qed.

Section Roundtrip.
Context {text : Type} (dumps : json -> text) (loads : text -> result json).
Context (shuffle : list Card -> list Card).
Hypothesis loads_dumps : forall v, loads (dumps v) = Ok v.
Hypothesis shuffle_perm : forall l, Permutation (shuffle l) l.

Lemma save_game_run (g : Game.t) (filename : string) (h : store)
    (fs : gmap string text) (ps : list Player.t) :
  mapM (fun l => on_player l get) (Game.players g) h = (Ok ps, h) ->
  save_game text dumps g filename (h, fs) =
    (Ok tt, (h, <[filename := dumps (document ps g)]> fs)).
Proof.
  intros Hps. unfold save_game.
  rewrite (bind_Ok _ _ _ ps (h, fs)) by (by rewrite in_store_run, Hps).
  reflexivity.
Qed.

(** Loading a file that holds the document of a game with 2 to 12 players
    yields new players equal to the saved ones and the saved pyramid, cursor
    and rest stack. *)
Lemma load_game_run (g : Game.t) (filename : string) (h0 : store)
    (fs : gmap string text) (ps : list Player.t) :
  2 <= len ps <= 12 ->
  fs !! filename = Some (dumps (document ps g)) ->
  exists ls h1,
    load_game text loads shuffle filename (h0, fs) =
      (Ok (Game.mk ls (Game.pyramid g) (Game.rest_stapel g)), (h1, fs)) /\
    NoDup ls /\
    Forall2 (fun l p => h1 !! l = Some p) ls ps /\
    (forall l, l ∉ ls -> h1 !! l = h0 !! l).
Proof.
  intros HN Hfile.
  destruct (init_run shuffle (map Player.name ps) h0 shuffle_perm)
    as (ls & h' & Hinit & Hlen & Hnd & _ & Hold & Hget).
  { unfold len in *. by rewrite length_map. }
  rewrite length_map in Hlen.
  destruct (restore_players_run ps ls h' Hnd) as (h1 & Hrestore & Hps & Hold').
  { apply Forall2_same_length_lookup_2; [done|]. intros i l p Hl Hp.
    destruct (Hget i l Hl) as (name & Hname & Hq).
    eexists. split; [exact Hq|]. simpl.
    rewrite list_lookup_fmap, Hp in Hname. by injection Hname. }
  exists ls, h1. split; [|split; [done|split; [done|]]].
  2: { intros l Hl. by rewrite (Hold' l Hl), (Hold l Hl). }
  unfold load_game.
  rewrite (bind_Ok _ _ _ (dumps (document ps g)) (h0, fs)).
  2: { rewrite in_local_run. unfold read_text.
       by rewrite (bind_Ok _ _ fs fs fs), Hfile by reflexivity. }
  rewrite (bind_Ok _ _ _ (document ps g) (h0, fs))
    by (unfold lift_result; by rewrite loads_dumps).
  rewrite (bind_Ok _ _ _ (map player_to_json ps) (h0, fs))
    by (unfold lift_result; by rewrite document_players).
  rewrite (bind_Ok _ _ _ (map Player.name ps) (h0, fs))
    by (unfold lift_result; by rewrite document_names).
  rewrite (bind_Ok _ _ _ _ (h', fs)) by (by rewrite in_store_run, Hinit).
  cbn [Game.players].
  rewrite (bind_Ok _ _ _ tt (h1, fs)) by (by rewrite in_store_run, Hrestore).
  rewrite (bind_Ok _ _ _ (map (map _card_to_tuple) (Pyramid.rows (Game.pyramid g)))
             (h1, fs))
    by (unfold lift_result; by rewrite document_rows).
  rewrite (bind_Ok _ _ _ (concat (Pyramid.rows (Game.pyramid g))) (h1, fs))
    by (unfold lift_result; by rewrite concat_from_to_tuples).
  rewrite (bind_Ok _ _ _ (Pyramid.rows (Game.pyramid g)) (h1, fs))
    by (unfold lift_result; by rewrite rows_from_to_tuples).
  rewrite (bind_Ok _ _ _ (Pyramid._row (Game.pyramid g)) (h1, fs))
    by (unfold lift_result; by rewrite document_row).
  rewrite (bind_Ok _ _ _ (Pyramid._col (Game.pyramid g)) (h1, fs))
    by (unfold lift_result; by rewrite document_col).
  rewrite (bind_Ok _ _ _ (Game.rest_stapel g) (h1, fs))
    by (unfold lift_result; by rewrite document_rest).
  cbn [Pyramid.rows Pyramid._row Pyramid._col]. by destruct (Game.pyramid g).
Qed.
End Roundtrip.

(** C6. Saving a game with 2 to 12 live players and loading the file again,
    into any store, succeeds and yields a game whose players are, one by one
    and in order, equal to the saved ones in name, hand, revealed set and
    drinks, whose rest stack is the saved one, and whose pyramid is the saved
    one with the saved cursor, so that the next [reveal_next_card] returns
    what it returns on the original game.  [dumps] and [loads] are those of
    the [json] library, which reads back what it writes; [shuffle] is what
    [random.shuffle] does during the construction inside [load_game]. *)
Theorem save_load_roundtrip {text : Type} (dumps : json -> text)
    (loads : text -> result json) (shuffle : list Card -> list Card)
    (h : store) (fs : gmap string text) (g : Game.t) (filename : string)
    (h0 : store) :
  (forall v, loads (dumps v) = Ok v) ->
  (forall l, Permutation (shuffle l) l) ->
  2 <= len (Game.players g) <= 12 ->
  Forall (fun l => is_Some (h !! l)) (Game.players g) ->
  exists fs1 g' h1,
    save_game text dumps g filename (h, fs) = (Ok tt, (h, fs1)) /\
    load_game text loads shuffle filename (h0, fs1) = (Ok g', (h1, fs1)) /\
    Forall2 (fun l' l => exists p, h1 !! l' = Some p /\ h !! l = Some p)
            (Game.players g') (Game.players g) /\
    Game.rest_stapel g' = Game.rest_stapel g /\
    Game.pyramid g' = Game.pyramid g /\
    fst (Game.reveal_next_card g') = fst (Game.reveal_next_card g).
Proof.
  intros Hjson Hperm HN Hlive.
  destruct (read_players_run (Game.players g) h Hlive) as (ps & Hps & Hread).
  pose proof (Forall2_length _ _ _ Hps) as Hlen.
  destruct (load_game_run dumps loads shuffle Hjson Hperm g filename h0
              (<[filename := dumps (document ps g)]> fs) ps)
    as (ls & h1 & Hload & Hnd & Hnew & _).
  { unfold len in *. by rewrite <- Hlen. }
  { apply lookup_insert_eq. }
  eexists. eexists. exists h1.
  split; [by apply save_game_run|]. split; [exact Hload|].
  cbn [Game.players Game.pyramid Game.rest_stapel].
  split; [|split; [done|split; [done|]]].
  - apply Forall2_same_length_lookup_2.
    { apply Forall2_length in Hnew. congruence. }
    intros i l' l Hl' Hl.
    destruct (Forall2_lookup_l _ _ _ _ _ Hnew Hl') as (p & Hp & Hp').
    destruct (Forall2_lookup_l _ _ _ _ _ Hps Hl) as (p2 & Hp2 & Hp2').
    exists p. split; [done|]. congruence.
  - by rewrite !reveal_next_card_run.
Qed.

Lemma save_load_roundtrip_witness :
  exists fs1 g' h1,
    save_game json id sample_game "game.json" (sample_store, ∅) = (Ok tt, (sample_store, fs1)) /\
    load_game json Ok id "game.json" (∅, fs1) = (Ok g', (h1, fs1)) /\
    Forall2 (fun l' l => exists p, h1 !! l' = Some p /\ sample_store !! l = Some p)
            (Game.players g') (Game.players sample_game) /\
    Game.rest_stapel g' = Game.rest_stapel sample_game /\
    Game.pyramid g' = Game.pyramid sample_game /\
    fst (Game.reveal_next_card g') = fst (Game.reveal_next_card sample_game).
Proof.
  apply (save_load_roundtrip id Ok id sample_store ∅ sample_game "game.json" ∅).
  - reflexivity.
  - reflexivity.
  - vm_compute. split; discriminate.
  - repeat constructor; by eexists.
Defined.

(** * Further properties of the code *)

(** ** The deck, for every count *)

Lemma slice_del_slice_prefix {A} (l : list A) (n : Z) :
  (py_slice l 0 n ++ py_del_slice l 0 n)%list = l.
Proof.
  unfold py_slice, py_del_slice. pose proof (len_nonneg l) as Hl.
  assert (slice_bound (len l) 0 = 0) as ->.
  { unfold slice_bound. rewrite Z.ltb_irrefl. by apply Z.min_l. }
  set (b := slice_bound (len l) n).
  assert (0 <= b) as Hb.
  { unfold b, slice_bound. destruct (Z.ltb_spec n 0);
      [apply Z.le_max_l | by apply Z.min_glb]. }
  rewrite Z.sub_0_r, Z.max_r by done. simpl. apply take_drop.
Qed.

(** X1. [deal] never loses or duplicates a card, whatever the count, negative
    counts included: when it returns, the cards dealt followed by the cards
    left are the deck as it was, in order; when it raises, the deck is as it
    was. *)
Theorem deal_conserves_cards (n : Z) (d : Deck.t) :
  match Deck.deal n d with
  | (Ok dealt, d') => (dealt ++ Deck.cards d')%list = Deck.cards d
  | (Raise _, d') => d' = d
  end.
Proof.
  rewrite deal_run. destruct (len (Deck.cards d) <? n); [done|].
  apply slice_del_slice_prefix.
Qed.

(** X2. [deal(n)] raises, with its "not enough cards" [ValueError], exactly
    when [n] exceeds the number of cards in the deck; on [0 <= n <= len] it
    returns exactly [n] cards, the first [n], and leaves [len - n]. *)
Theorem deal_fails_iff_too_many (n : Z) (d : Deck.t) :
  ((exists e, fst (Deck.deal n d) = Raise e) <-> len (Deck.cards d) < n) /\
  (len (Deck.cards d) < n ->
   Deck.deal n d = (Raise (ValueError "Not enough cards to deal"), d)) /\
  (0 <= n <= len (Deck.cards d) ->
   exists dealt d',
     Deck.deal n d = (Ok dealt, d') /\
     dealt = take (Z.to_nat n) (Deck.cards d) /\
     len dealt = n /\ len (Deck.cards d') = len (Deck.cards d) - n).
Proof.
  split; [|split].
  - rewrite deal_run. destruct (Z.ltb_spec (len (Deck.cards d)) n) as [Hlt|Hge].
    + split; [done | eauto].
    + split; [intros [e He]; discriminate He | lia].
  - intros Hlt. rewrite deal_run.
    by destruct (Z.ltb_spec (len (Deck.cards d)) n); [|lia].
  - intros Hn. eexists. eexists. split; [by apply deal_prefix|].
    split; [done|]. unfold len in *. cbn [Deck.cards].
    rewrite length_take, length_drop. lia.
Qed.

Lemma deal_fails_iff_too_many_witness :
  exists dealt d',
    Deck.deal 2 sample_deck = (Ok dealt, d') /\
    dealt = take (Z.to_nat 2) (Deck.cards sample_deck) /\
    len dealt = 2 /\ len (Deck.cards d') = len (Deck.cards sample_deck) - 2.
Proof.
  apply (proj2 (proj2 (deal_fails_iff_too_many 2 sample_deck))).
  vm_compute. split; discriminate.
Defined.

(** X3. A count below [-len] deals nothing and removes nothing: [deal]
    returns the empty list and the deck stays whole. *)
Theorem deal_below_minus_len (n : Z) (d : Deck.t) :
  n < - len (Deck.cards d) -> Deck.deal n d = (Ok [], d).
Proof.
  intros Hn. pose proof (len_nonneg (Deck.cards d)) as Hl.
  rewrite deal_run. destruct (Z.ltb_spec (len (Deck.cards d)) n); [lia|].
  unfold py_slice, py_del_slice, slice_bound.
  destruct (Z.ltb_spec n 0); [|lia]. rewrite Z.ltb_irrefl.
  rewrite (Z.min_l 0), (Z.max_l 0 (n + _)) by lia.
  simpl. by destruct d.
Qed.

Lemma deal_below_minus_len_witness : Deck.deal (-5) sample_deck = (Ok [], sample_deck).
Proof. apply deal_below_minus_len. vm_compute. reflexivity. Defined.

(** ** The pyramid, for every list of cards and every cursor *)

Lemma slice_nonneg {A} (l : list A) (lo hi : Z) :
  0 <= lo <= hi ->
  py_slice l lo hi = take (Z.to_nat (hi - lo)) (drop (Z.to_nat lo) l).
Proof.
  intros Hlo. pose proof (len_nonneg l) as Hl. unfold py_slice, slice_bound.
  destruct (Z.ltb_spec lo 0), (Z.ltb_spec hi 0); try lia.
  destruct (Z.le_gt_cases lo (len l)) as [Hin|Hout].
  - rewrite (Z.min_l lo) by done.
    destruct (Z.le_gt_cases hi (len l)) as [Hin'|Hout'].
    + by rewrite (Z.min_l hi) by done.
    + rewrite (Z.min_r hi) by lia.
      rewrite !take_ge; [done | |]; rewrite length_drop; unfold len in *; lia.
  - rewrite !Z.min_r by lia. rewrite Z.sub_diag. simpl.
    rewrite (drop_ge l (Z.to_nat lo)) by (unfold len in *; lia).
    by rewrite take_nil.
Qed.




Lemma pending_exhausted (p : Pyramid.t) :
  Pyramid.wf p = true -> Pyramid.exhausted p = true -> Pyramid.pending p = [].
Proof.
  intros (Hr & _)%wf_unfold Hex. unfold Pyramid.exhausted in Hex.
  apply Z.leb_le in Hex. unfold Pyramid.pending.
  by rewrite drop_ge by (unfold len in Hex; lia).
Qed.

Lemma next_card_rows (p : Pyramid.t) :
  Pyramid.rows (snd (Pyramid.next_card p)) = Pyramid.rows p.
Proof.
  destruct (Pyramid.exhausted p) eqn:Hex.
  { by rewrite next_card_exhausted. }
  destruct (Pyramid.next_card p) as [[c|e] p'] eqn:Hrun.
  2: { by rewrite (next_card_fails_unchanged p e p' Hrun). }
  destruct (py_getitem (Pyramid.rows p) (Pyramid._row p)) as [row|e1] eqn:Hrow.
  - destruct (py_getitem row (Pyramid._col p)) as [card|e2] eqn:Hcard.
    + rewrite (next_card_run p row card Hex Hrow Hcard) in Hrun.
      injection Hrun as _ <-. by destruct (len row <=? Pyramid._col p + 1).
    + exfalso. revert Hrun. unfold Pyramid.exhausted in Hex.
      unfold Pyramid.next_card, mbind, M_bind, bind, get, put, lift_result. simpl.
      rewrite Hex, Hrow, Hcard. discriminate.
  - exfalso. revert Hrun. unfold Pyramid.exhausted in Hex.
    unfold Pyramid.next_card, mbind, M_bind, bind, get, put, lift_result. simpl.
    rewrite Hex, Hrow. discriminate.
Qed.

(** X5. [next_card] never changes the rows, whatever the cursor.  On a
    well-formed pyramid it returns the first card not yet revealed ([None]
    when there is none), leaves exactly the others to be revealed, and keeps
    the pyramid well formed. *)
Theorem next_card_invariants (p : Pyramid.t) :
  Pyramid.rows (snd (Pyramid.next_card p)) = Pyramid.rows p /\
  (Pyramid.wf p = true ->
   fst (Pyramid.next_card p) = Ok (head (Pyramid.pending p)) /\
   Pyramid.pending (snd (Pyramid.next_card p)) = tail (Pyramid.pending p) /\
   Pyramid.wf (snd (Pyramid.next_card p)) = true).
Proof.
  split; [apply next_card_rows|]. intros Hwf.
  destruct (Pyramid.exhausted p) eqn:Hex.
  - rewrite next_card_exhausted by done. simpl.
    by rewrite (pending_exhausted p Hwf Hex).
  - destruct (next_card_wf p Hwf Hex) as (card & _ & Hfst & Hwf' & _ & Hpend).
    rewrite Hfst, Hpend. done.
Qed.

Lemma next_card_invariants_witness :
  fst (Pyramid.next_card (Game.pyramid sample_game))
    = Ok (head (Pyramid.pending (Game.pyramid sample_game))) /\
  Pyramid.pending (snd (Pyramid.next_card (Game.pyramid sample_game)))
    = tail (Pyramid.pending (Game.pyramid sample_game)) /\
  Pyramid.wf (snd (Pyramid.next_card (Game.pyramid sample_game))) = true.
Proof.
  apply (proj2 (next_card_invariants (Game.pyramid sample_game))). reflexivity.
Defined.



Lemma build_rows_nonempty (cards : list Card) (sizes : list Z) (idx : Z) (final : Z) :
  Forall (fun k => 0 < k) sizes -> 0 <= idx ->
  last sizes = Some final ->
  Forall (fun r : list Card => 0 < len r) (Pyramid.build_rows cards sizes idx) ->
  idx + foldr Z.add 0 sizes - final < len cards.
Proof.
  revert idx. induction sizes as [|size sizes IH]; intros idx Hpos Hidx Hlast Hrows.
  { discriminate Hlast. }
  apply Forall_cons in Hpos as [Hsize Hpos].
  cbn [Pyramid.build_rows] in Hrows. apply Forall_cons in Hrows as [Hrow Hrows].
  destruct sizes as [|size' sizes'].
  - injection Hlast as <-. simpl.
    rewrite slice_nonneg in Hrow by lia. unfold len in *.
    rewrite length_take, length_drop in Hrow. lia.
  - specialize (IH (idx + size) Hpos ltac:(lia) Hlast Hrows).
    cbn [foldr] in *. lia.
Qed.

Lemma range_down_last (R : Z) : 1 <= R -> last (range_down R) = Some 1.
Proof.
  intros HR. unfold range_down.
  replace (Z.to_nat R) with (S (Z.to_nat (R - 1))) by lia.
  rewrite seq_S, map_app. cbn [map]. rewrite last_snoc. f_equal. lia.
Qed.

(** X7. A pyramid built with [R >= 1] rows is well formed exactly when it was
    given at least [R(R+1)/2] cards: with fewer, some row is empty and the
    cursor will reach a cell that does not exist. *)
Theorem pyramid_init_wf_iff (cards : list Card) (R : Z) :
  1 <= R ->
  (Pyramid.wf (Pyramid.__init__ cards R) = true <-> R * (R + 1) / 2 <= len cards).
Proof.
  intros HR. split.
  - intros (_ & _ & Hrows & _)%wf_unfold.
    pose proof (build_rows_nonempty cards (range_down R) 0 1
                  (range_down_positive R) ltac:(lia) (range_down_last R HR) Hrows) as Hlt.
    replace (foldr Z.add 0 (range_down R)) with (R * (R + 1) / 2) in Hlt; [lia|].
    rewrite <- (Z2Nat.id R) at 3 by lia. by rewrite range_down_sum, Z2Nat.id by lia.
  - intros Hlen. by apply pyramid_init_spec; [lia|].
Qed.

Lemma pyramid_init_wf_iff_witness :
  Pyramid.wf (Pyramid.__init__ [mkCard "A" "spades"; mkCard "K" "spades"] 2) = true
  <-> 2 * (2 + 1) / 2 <= len [mkCard "A" "spades"; mkCard "K" "spades"].
Proof. apply pyramid_init_wf_iff. lia. Defined.

(** ** The game after its construction *)

Lemma fresh_cards_NoDup : NoDup Deck.fresh_cards.
Proof. apply (bool_decide_unpack (NoDup Deck.fresh_cards)). vm_compute. exact I. Qed.

(** X8. The players of a new game are new objects, all different, at
    references the store did not use; they carry the given names in the given
    order, four cards, an empty revealed set and no drinks; the objects the
    store held before are not touched. *)
Theorem game_init_players (shuffle : list Card -> list Card) (names : list string)
    (h : store) :
  (forall l, Permutation (shuffle l) l) ->
  2 <= len names <= 12 ->
  exists g h',
    Game.__init__ shuffle names h = (Ok g, h') /\
    NoDup (Game.players g) /\
    Forall (fun l => h !! l = None) (Game.players g) /\
    (forall l, l ∉ Game.players g -> h' !! l = h !! l) /\
    Forall2 (fun l name => exists hand,
               h' !! l = Some (Player.mk name hand ∅ 0) /\ len hand = 4)
            (Game.players g) names.
Proof.
  intros Hperm HN.
  destruct (init_run shuffle names h Hperm HN)
    as (ls & h' & Hrun & Hlen & Hnd & Hfresh & Hold & Hget).
  assert (length (shuffle Deck.fresh_cards) = 52%nat) as Hdeck.
  { by rewrite (Permutation_length (Hperm _)). }
  eexists. exists h'. split; [exact Hrun|]. cbn [Game.players].
  split; [done|]. split; [done|]. split; [done|].
  apply Forall2_same_length_lookup_2; [done|]. intros i l name Hl Hname.
  destruct (Hget i l Hl) as (name' & Hname' & Hp).
  rewrite Hname in Hname'. injection Hname' as <-.
  eexists. split; [exact Hp|]. apply lookup_lt_Some in Hname.
  unfold len in *. rewrite length_take, length_drop. lia.
Qed.

Lemma game_init_players_witness :
  exists g h',
    Game.__init__ reverse ["A"; "B"] ∅ = (Ok g, h') /\
    NoDup (Game.players g) /\
    Forall (fun l => (∅ : store) !! l = None) (Game.players g) /\
    (forall l, l ∉ Game.players g -> h' !! l = (∅ : store) !! l) /\
    Forall2 (fun l name => exists hand,
               h' !! l = Some (Player.mk name hand ∅ 0) /\ len hand = 4)
            (Game.players g) ["A"; "B"].
Proof.
  apply (game_init_players reverse ["A"; "B"] ∅).
  - intros l. apply reverse_Permutation.
  - vm_compute. split; discriminate.
Defined.

Lemma concat_hands (names : list string) (deck : list Card) (k : nat) :
  (4 * (k + length names) <= length deck)%nat ->
  concat (map Player.hand
            (imap (fun i name => Player.mk name (take 4 (drop (4 * (k + i)) deck)) ∅ 0)
                  names))
  = take (4 * length names) (drop (4 * k) deck).
Proof.
  revert k. induction names as [|name names IH]; intros k Hlen.
  { by rewrite Nat.mul_0_r, take_0. }
  cbn [imap map concat length Player.hand] in *.
  rewrite (imap_ext _ (fun i name => Player.mk name (take 4 (drop (4 * (S k + i)) deck)) ∅ 0)).
  2: { intros i x _. simpl. do 3 f_equal. lia. }
  rewrite IH by lia. rewrite Nat.add_0_r.
  replace (4 * S k)%nat with (4 * k + 4)%nat by lia.
  rewrite <- drop_drop, take_take_drop. f_equal. lia.
Qed.

(** X9. Setting up a game neither loses nor duplicates a card: the hands of
    the players in order, then the pyramid rows from the bottom, then the rest
    stack, are the shuffled deck from its top; so together they are the 52
    different cards of a deck. *)
Theorem game_init_conserves_cards (shuffle : list Card -> list Card)
    (names : list string) (h : store) :
  (forall l, Permutation (shuffle l) l) ->
  2 <= len names <= 12 ->
  exists g h' ps,
    Game.__init__ shuffle names h = (Ok g, h') /\
    Forall2 (fun l p => h' !! l = Some p) (Game.players g) ps /\
    let dealt := (concat (map Player.hand ps)
                  ++ concat (Pyramid.rows (Game.pyramid g))
                  ++ Game.rest_stapel g)%list in
    dealt = shuffle Deck.fresh_cards /\
    Permutation dealt Deck.fresh_cards /\ NoDup dealt /\ length dealt = 52%nat.
Proof.
  intros Hperm HN.
  destruct (init_run shuffle names h Hperm HN)
    as (ls & h' & Hrun & Hlen & Hnd & _ & _ & Hget).
  set (deck := shuffle Deck.fresh_cards) in *.
  set (R := (Z.sqrt (8 * (52 - 4 * len names) + 1) - 1) / 2) in *.
  assert (length deck = 52%nat) as Hdeck.
  { unfold deck. by rewrite (Permutation_length (Hperm _)). }
  destruct (max_pyramid_rows_bounds_largest (52 - 4 * len names) ltac:(lia))
    as (HR0 & Hle & _).
  fold R in HR0, Hle.
  assert (0 <= R * (R + 1) / 2) as Hnonneg.
  { pose proof (triangle_even R). nia. }
  set (total := Z.to_nat (R * (R + 1) / 2)) in *.
  destruct (pyramid_init_spec (take total (drop (4 * length names) deck)) R HR0)
    as (_ & Hcat & _); [|cbv zeta in Hcat].
  { unfold len in *. rewrite length_take, length_drop. lia. }
  fold total in Hcat. rewrite take_take, Nat.min_id in Hcat.
  eexists. exists h'.
  exists (imap (fun i name => Player.mk name (take 4 (drop (4 * (0 + i)) deck)) ∅ 0) names).
  split; [exact Hrun|]. cbn [Game.players Game.pyramid Game.rest_stapel].
  split.
  { apply Forall2_same_length_lookup_2; [by rewrite length_imap|].
    intros i l p Hl Hp. destruct (Hget i l Hl) as (name & Hname & Hq).
    rewrite list_lookup_imap, Hname in Hp. simpl in Hp. by injection Hp as <-. }
  assert ((concat (map Player.hand
             (imap (fun i name => Player.mk name (take 4 (drop (4 * (0 + i)) deck)) ∅ 0)
                   names))
           ++ concat (Pyramid.rows
                        (Pyramid.__init__ (take total (drop (4 * length names) deck)) R))
           ++ drop total (drop (4 * length names) deck))%list = deck) as Hall.
  { rewrite concat_hands by (unfold len in *; lia). rewrite Hcat.
    rewrite Nat.mul_0_r, drop_0, take_drop. apply take_drop. }
  cbv zeta. rewrite Hall. split; [done|]. split; [apply Hperm|].
  split; [|done]. unfold deck. rewrite (Hperm Deck.fresh_cards).
  apply fresh_cards_NoDup.
Qed.

Lemma game_init_conserves_cards_witness :
  exists g h' ps,
    Game.__init__ reverse ["A"; "B"] ∅ = (Ok g, h') /\
    Forall2 (fun l p => h' !! l = Some p) (Game.players g) ps /\
    let dealt := (concat (map Player.hand ps)
                  ++ concat (Pyramid.rows (Game.pyramid g))
                  ++ Game.rest_stapel g)%list in
    dealt = reverse Deck.fresh_cards /\
    Permutation dealt Deck.fresh_cards /\ NoDup dealt /\ length dealt = 52%nat.
Proof.
  apply (game_init_conserves_cards reverse ["A"; "B"] ∅).
  - intros l. apply reverse_Permutation.
  - vm_compute. split; discriminate.
Defined.

(** X10. A new game is ready to play: it satisfies the invariant of a game in
    play, its pyramid has between 2 and 8 rows and is not exhausted, the
    cursor is on the first cell, which holds the card that followed the hands
    in the shuffled deck, and the rest stack is too small for one more row
    (at most [R] cards). *)
Theorem game_init_ready (shuffle : list Card -> list Card) (names : list string)
    (h : store) :
  (forall l, Permutation (shuffle l) l) ->
  2 <= len names <= 12 ->
  exists g h',
    Game.__init__ shuffle names h = (Ok g, h') /\
    game_ok h' g /\
    Pyramid.exhausted (Game.pyramid g) = false /\
    Pyramid._row (Game.pyramid g) = 0 /\ Pyramid._col (Game.pyramid g) = 0 /\
    Pyramid.peek (Game.pyramid g) = shuffle Deck.fresh_cards !! (4 * length names)%nat /\
    2 <= len (Pyramid.rows (Game.pyramid g)) <= 8 /\
    len (Game.rest_stapel g) <= len (Pyramid.rows (Game.pyramid g)).
Proof.
  intros Hperm HN.
  destruct (init_run shuffle names h Hperm HN)
    as (ls & h' & Hrun & Hlen & Hnd & _ & _ & Hget).
  set (deck := shuffle Deck.fresh_cards) in *.
  set (R := (Z.sqrt (8 * (52 - 4 * len names) + 1) - 1) / 2) in *.
  assert (length deck = 52%nat) as Hdeck.
  { unfold deck. by rewrite (Permutation_length (Hperm _)). }
  destruct (max_rows_bounds (52 - 4 * len names) ltac:(lia)) as (HR0 & Hle & Hlt).
  fold R in HR0, Hle, Hlt. pose proof (triangle_even R) as Heven.
  clearbody R.
  assert (2 <= R <= 8) as HR.
  { split.
    - destruct (Z.le_gt_cases 2 R); [done|].
      assert ((R + 1) * (R + 2) <= 6) by nia. lia.
    - destruct (Z.le_gt_cases R 8); [done|].
      assert (90 <= R * (R + 1)) by nia. lia. }
  set (total := Z.to_nat (R * (R + 1) / 2)) in *.
  set (cards := take total (drop (4 * length names) deck)) in *.
  assert (length cards = total) as Hcards.
  { unfold cards, len in *. rewrite length_take, length_drop. lia. }
  destruct (pyramid_init_spec cards R HR0) as (Hsizes & Hcat & Hpend & Hwf);
    [unfold len; lia | cbv zeta in Hsizes, Hcat, Hpend, Hwf].
  assert (len (Pyramid.rows (Pyramid.__init__ cards R)) = R) as Hrows.
  { apply (f_equal (@length Z)) in Hsizes.
    rewrite length_map, range_down_length in Hsizes. unfold len. lia. }
  assert (Pyramid.exhausted (Pyramid.__init__ cards R) = false) as Hex.
  { unfold Pyramid.exhausted. rewrite Hrows. apply Z.leb_gt. simpl. lia. }
  destruct (next_card_wf _ Hwf Hex) as (card & Hpeek & _ & _ & _ & Hhead).
  eexists. exists h'. split; [exact Hrun|].
  cbn [Game.players Game.pyramid Game.rest_stapel]. fold cards.
  split; [|split; [done|split; [done|split; [done|split; [|split]]]]].
  - unfold game_ok. cbn [Game.players Game.pyramid].
    split; [unfold len; rewrite Hlen; exact HN|]. split; [done|]. split; [|done].
    apply Forall_forall. intros l Hl. apply list_elem_of_lookup in Hl as [i Hi].
    destruct (Hget i l Hi) as (name & Hname & Hl). eexists. split; [exact Hl|].
    apply lookup_lt_Some in Hname. split; [|done]. cbn [Player.hand].
    clear -Hname HN Hdeck. unfold len in *. rewrite length_take, length_drop. lia.
  - rewrite Hpeek. rewrite Hpend, Hcat in Hhead.
    rewrite take_ge in Hhead by (fold total; lia).
    assert (cards !! 0%nat = Some card) as H0 by (by rewrite Hhead).
    unfold cards in H0. rewrite lookup_take_lt in H0 by lia.
    rewrite lookup_drop, Nat.add_0_r in H0. done.
  - lia.
  - rewrite Hrows. unfold len in *. rewrite !length_drop. lia.
Qed.

Lemma game_init_ready_witness :
  exists g h',
    Game.__init__ reverse ["A"; "B"] ∅ = (Ok g, h') /\
    game_ok h' g /\
    Pyramid.exhausted (Game.pyramid g) = false /\
    Pyramid._row (Game.pyramid g) = 0 /\ Pyramid._col (Game.pyramid g) = 0 /\
    Pyramid.peek (Game.pyramid g) = reverse Deck.fresh_cards !! (4 * length ["A"; "B"])%nat /\
    2 <= len (Pyramid.rows (Game.pyramid g)) <= 8 /\
    len (Game.rest_stapel g) <= len (Pyramid.rows (Game.pyramid g)).
Proof.
  apply (game_init_ready reverse ["A"; "B"] ∅).
  - intros l. apply reverse_Permutation.
  - vm_compute. split; discriminate.
Defined.

(** ** What a turn does to the game and to the players *)

Lemma play_turn_game claimer target chosen_index target_believes (h : store) (g : Game.t) :
  snd (snd (Game.play_turn claimer target chosen_index target_believes (h, g)))
  = snd (Game.reveal_next_card g).
Proof.
  rewrite play_turn_start.
  destruct (Game.reveal_next_card g) as [[[card|]|e] g'] eqn:Hrev; [|done..].
  pose proof (f_equal fst Hrev) as Hfst. rewrite reveal_next_card_run in Hfst.
  simpl in Hfst. cbn [snd].
  destruct claimer as [c|], target as [t|], chosen_index as [i|]; try done.
  pose proof (play_turn_claim c t i target_believes h g card Hfst) as Hclaim.
  rewrite play_turn_start, Hrev in Hclaim. cbv zeta in Hclaim. cbn [snd] in Hclaim.
  rewrite Hclaim. destruct target_believes.
  - by destruct (h !! t).
  - destruct (h !! c) as [cp|]; [|done].
    destruct (py_getitem (Player.hand cp) i); [|done].
    case_bool_decide; [|done]. by destruct (_ !! t).
Qed.

(** The player at [l] after a turn: the same name and hand, no index less
    revealed, at most 2 more drinks. *)
Lemma play_turn_player claimer target chosen_index target_believes
    (h : store) (g : Game.t) (l : loc) :
  let h' := fst (snd (Game.play_turn claimer target chosen_index target_believes (h, g))) in
  match h !! l with
  | Some p =>
      exists p', h' !! l = Some p' /\
        Player.name p' = Player.name p /\ Player.hand p' = Player.hand p /\
        Player.revealed_indices p ⊆ Player.revealed_indices p' /\
        Player.drinks_taken p <= Player.drinks_taken p' <= Player.drinks_taken p + 2
  | None => h' !! l = None
  end.
Proof.
  assert (forall p : Player.t,
            exists p', Some p = Some p' /\
              Player.name p' = Player.name p /\ Player.hand p' = Player.hand p /\
              Player.revealed_indices p ⊆ Player.revealed_indices p' /\
              Player.drinks_taken p <= Player.drinks_taken p' <= Player.drinks_taken p + 2)
    as Hsame.
  { intros p. exists p. repeat split; [done | lia | lia]. }
  assert (match h !! l with
          | Some p => exists p', h !! l = Some p' /\
              Player.name p' = Player.name p /\ Player.hand p' = Player.hand p /\
              Player.revealed_indices p ⊆ Player.revealed_indices p' /\
              Player.drinks_taken p <= Player.drinks_taken p' <= Player.drinks_taken p + 2
          | None => h !! l = None
          end) as Hsame'.
  { destruct (h !! l) as [p|]; [apply Hsame | done]. }
  cbv zeta.
  turn_cases h g claimer target chosen_index target_believes; try exact Hsame'.
  destruct target_believes.
  - destruct (h !! t) as [tp|] eqn:Ht; [|exact Hsame']. cbn [fst snd].
    destruct (decide (l = t)) as [->|Hne].
    + rewrite Ht, lookup_insert_eq. eexists. split; [done|]. simpl.
      repeat split; [done | lia | lia].
    + by rewrite lookup_insert_ne.
  - destruct (h !! c) as [cp|] eqn:Hc; [|exact Hsame'].
    destruct (py_getitem (Player.hand cp) i) as [shown|e].
    + case_bool_decide.
      * destruct (<[c := mark_revealed i cp]> h !! t) as [tp|] eqn:Ht; cbn [fst snd].
        -- destruct (decide (l = t)) as [->|Hlt].
           ++ rewrite lookup_insert_eq.
              destruct (decide (t = c)) as [->|Htc].
              ** rewrite lookup_insert_eq in Ht. injection Ht as <-.
                 rewrite Hc. eexists. split; [done|]. simpl.
                 repeat split; [set_solver | lia | lia].
              ** rewrite lookup_insert_ne in Ht by done. rewrite Ht.
                 eexists. split; [done|]. simpl. repeat split; [done | lia | lia].
           ++ rewrite lookup_insert_ne by done.
              destruct (decide (l = c)) as [->|Hlc].
              ** rewrite lookup_insert_eq, Hc. eexists. split; [done|]. simpl.
                 repeat split; [set_solver | lia | lia].
              ** by rewrite lookup_insert_ne.
        -- destruct (decide (l = c)) as [->|Hlc].
           ++ rewrite lookup_insert_eq, Hc. eexists. split; [done|]. simpl.
              repeat split; [set_solver | lia | lia].
           ++ by rewrite lookup_insert_ne.
      * cbn [fst snd]. destruct (decide (l = c)) as [->|Hlc].
        -- rewrite lookup_insert_eq, Hc. eexists. split; [done|]. simpl.
           repeat split; [set_solver | lia | lia].
        -- by rewrite lookup_insert_ne.
    + cbn [fst snd]. destruct (decide (l = c)) as [->|Hlc].
      * rewrite lookup_insert_eq, Hc. eexists. split; [done|]. simpl.
        repeat split; [set_solver | lia | lia].
      * by rewrite lookup_insert_ne.
Qed.

Lemma next_card_keeps_wf (p : Pyramid.t) :
  Pyramid.wf p = true ->
  Pyramid.wf (snd (Pyramid.next_card p)) = true /\
  Pyramid.pending (snd (Pyramid.next_card p)) = tail (Pyramid.pending p).
Proof.
  intros Hwf. destruct (Pyramid.exhausted p) eqn:Hex.
  - rewrite next_card_exhausted by done. simpl.
    by rewrite (pending_exhausted p Hwf Hex).
  - destruct (next_card_wf p Hwf Hex) as (card & _ & _ & Hwf' & _ & Hpend).
    by rewrite Hpend.
Qed.

Lemma play_turn_frame claimer target chosen_index target_believes
    (h : store) (g : Game.t) (l : loc) :
  claimer <> Some l -> target <> Some l ->
  fst (snd (Game.play_turn claimer target chosen_index target_believes (h, g))) !! l
  = h !! l.
Proof.
  intros Hc Ht.
  turn_cases h g claimer target chosen_index target_believes; try done.
  assert (c <> l) as Hcl by congruence. assert (t <> l) as Htl by congruence.
  destruct target_believes.
  - destruct (h !! t); [|done]. cbn [fst snd]. by rewrite lookup_insert_ne.
  - destruct (h !! c) as [cp|]; [|done].
    destruct (py_getitem (Player.hand cp) i).
    + case_bool_decide.
      * destruct (_ !! t); cbn [fst snd]; by rewrite ?lookup_insert_ne.
      * cbn [fst snd]. by rewrite lookup_insert_ne.
    + cbn [fst snd]. by rewrite lookup_insert_ne.
Qed.

(** X11. Whatever its arguments and whether it returns or raises, [play_turn]
    does to the game object exactly what [reveal_next_card] does: players,
    rest stack and rows stay, and on a well-formed pyramid exactly one card
    fewer is left to reveal (none fewer when none was left). *)
Theorem play_turn_moves_cursor_once (claimer target : option loc)
    (chosen_index : option Z) (target_believes : bool) (h : store) (g : Game.t) :
  let g' := snd (snd (Game.play_turn claimer target chosen_index target_believes (h, g))) in
  g' = snd (Game.reveal_next_card g) /\
  Game.players g' = Game.players g /\
  Game.rest_stapel g' = Game.rest_stapel g /\
  Pyramid.rows (Game.pyramid g') = Pyramid.rows (Game.pyramid g) /\
  (Pyramid.wf (Game.pyramid g) = true ->
   Pyramid.wf (Game.pyramid g') = true /\
   Pyramid.pending (Game.pyramid g') = tail (Pyramid.pending (Game.pyramid g))).
Proof.
  cbv zeta. rewrite play_turn_game, reveal_next_card_run. cbn [snd Game.players
    Game.rest_stapel Game.pyramid].
  split; [done|]. split; [done|]. split; [done|]. split; [apply next_card_rows|].
  apply next_card_keeps_wf.
Qed.

Lemma play_turn_moves_cursor_once_witness :
  Pyramid.wf (Game.pyramid (snd (snd (Game.play_turn (Some 0%nat) (Some 1%nat) (Some 9)
                                        false (sample_store, sample_game))))) = true /\
  Pyramid.pending (Game.pyramid (snd (snd (Game.play_turn (Some 0%nat) (Some 1%nat)
                                             (Some 9) false (sample_store, sample_game)))))
  = tail (Pyramid.pending (Game.pyramid sample_game)).
Proof.
  apply (play_turn_moves_cursor_once (Some 0%nat) (Some 1%nat) (Some 9) false
           sample_store sample_game).
  reflexivity.
Defined.

(** X12. Whatever its arguments and whether it returns or raises,
    [play_turn] creates and deletes no player and, for every player, keeps
    name and hand, removes no revealed index and adds 0, 1 or 2 drinks; a
    player who is neither the claimer nor the target is not touched at all. *)
Theorem play_turn_players_effect (claimer target : option loc)
    (chosen_index : option Z) (target_believes : bool) (h : store) (g : Game.t)
    (l : loc) :
  let h' := fst (snd (Game.play_turn claimer target chosen_index target_believes (h, g))) in
  match h !! l with
  | Some p =>
      exists p', h' !! l = Some p' /\
        Player.name p' = Player.name p /\ Player.hand p' = Player.hand p /\
        Player.revealed_indices p ⊆ Player.revealed_indices p' /\
        Player.drinks_taken p <= Player.drinks_taken p' <= Player.drinks_taken p + 2
  | None => h' !! l = None
  end /\
  (claimer <> Some l -> target <> Some l -> h' !! l = h !! l).
Proof.
  cbv zeta. split; [apply play_turn_player | apply play_turn_frame].
Qed.

Lemma play_turn_players_effect_witness :
  fst (snd (Game.play_turn (Some 0%nat) (Some 0%nat) (Some 0) false
              (sample_store, sample_game))) !! 1%nat
  = sample_store !! 1%nat.
Proof.
  apply (play_turn_players_effect (Some 0%nat) (Some 0%nat) (Some 0) false
           sample_store sample_game 1%nat); discriminate.
Defined.

(** X13. The invariant of a game in play (2 to 12 different live players
    with four cards and no negative drinks, well-formed pyramid) survives
    every [play_turn], whatever the arguments and whether it returns or
    raises, and every [reveal_next_card]. *)
Theorem game_ok_preserved (claimer target : option loc) (chosen_index : option Z)
    (target_believes : bool) (h : store) (g : Game.t) :
  game_ok h g ->
  game_ok (fst (snd (Game.play_turn claimer target chosen_index target_believes (h, g))))
          (snd (snd (Game.play_turn claimer target chosen_index target_believes (h, g)))) /\
  game_ok h (snd (Game.reveal_next_card g)).
Proof.
  intros (Hn & Hnd & Hps & Hwf).
  assert (game_ok h (snd (Game.reveal_next_card g))) as Hrev.
  { rewrite reveal_next_card_run. unfold game_ok. cbn [snd Game.players Game.pyramid].
    repeat split; try done; try lia. by apply next_card_keeps_wf. }
  split; [|done].
  rewrite play_turn_game. destruct Hrev as (Hn' & Hnd' & _ & Hwf').
  split; [done|]. split; [done|]. split; [|done].
  rewrite reveal_next_card_run. cbn [snd Game.players].
  eapply Forall_impl; [exact Hps|]. intros l (p & Hp & Hhand & Hdrinks).
  pose proof (play_turn_player claimer target chosen_index target_believes h g l) as Hl.
  cbv zeta in Hl. rewrite Hp in Hl.
  destruct Hl as (p' & Hp' & _ & Hhand' & _ & Hd').
  exists p'. split; [done|]. split; [by rewrite Hhand' | lia].
Qed.

Lemma game_ok_preserved_witness :
  game_ok (fst (snd (Game.play_turn (Some 0%nat) (Some 1%nat) (Some 4) false
                       (sample_store, sample_game))))
          (snd (snd (Game.play_turn (Some 0%nat) (Some 1%nat) (Some 4) false
                       (sample_store, sample_game)))) /\
  game_ok sample_store (snd (Game.reveal_next_card sample_game)).
Proof.
  apply (game_ok_preserved (Some 0%nat) (Some 1%nat) (Some 4) false
           sample_store sample_game).
  split; [vm_compute; split; discriminate|]. split.
  { apply (bool_decide_unpack (NoDup [0%nat; 1%nat])). vm_compute. exact I. }
  split; [|reflexivity].
  repeat constructor; eexists; (split; [reflexivity|]); split; first [reflexivity | lia].
Defined.

(** ** Files *)

Section Files.
Context {text : Type} (dumps : json -> text) (loads : text -> result json).
Context (shuffle : list Card -> list Card).

Lemma read_text_run (filename : string) (fs : gmap string text) :
  read_text text filename fs =
    match fs !! filename with
    | Some content => (Ok content, fs)
    | None => (Raise (FileNotFoundError filename), fs)
    end.
Proof.
  unfold read_text. rewrite (bind_Ok _ _ fs fs fs) by reflexivity.
  by destruct (fs !! filename).
Qed.

Lemma load_game_missing (filename : string) (h0 : store) (fs : gmap string text) :
  fs !! filename = None ->
  load_game text loads shuffle filename (h0, fs)
  = (Raise (FileNotFoundError filename), (h0, fs)).
Proof.
  intros Hnone. unfold load_game, mbind at 1, M_bind at 1, bind at 1.
  by rewrite in_local_run, read_text_run, Hnone.
Qed.

Lemma load_game_bad_count (filename : string) (h0 : store) (fs : gmap string text)
    (content : text) (data : json) (items : list json) (names : list string) :
  fs !! filename = Some content ->
  loads content = Ok data ->
  (ps ← json_getitem data "players"; as_list ps) = Ok items ->
  mapM (fun p => n ← json_getitem p "name"; as_str n) items = Ok names ->
  len names < 2 \/ 12 < len names ->
  load_game text loads shuffle filename (h0, fs)
  = (Raise (ValueError "minstens 2, max 12 spelers voor 4 kaarten pp"), (h0, fs)).
Proof.
  intros Hfile Hloads Hitems Hnames Hcount. unfold load_game.
  rewrite (bind_Ok _ _ _ content (h0, fs))
    by (by rewrite in_local_run, read_text_run, Hfile).
  rewrite (bind_Ok _ _ _ data (h0, fs)) by (unfold lift_result; by rewrite Hloads).
  rewrite (bind_Ok _ _ _ items (h0, fs)) by (unfold lift_result; by rewrite Hitems).
  rewrite (bind_Ok _ _ _ names (h0, fs)) by (unfold lift_result; by rewrite Hnames).
  unfold mbind at 1, M_bind at 1, bind at 1.
  by rewrite in_store_run, init_invalid_count.
Qed.

(** Loading, given how the construction and the restoring loop inside it
    go. *)
Lemma load_game_steps (g g0 : Game.t) (filename : string) (h0 h' h1 : store)
    (fs : gmap string text) (ps : list Player.t) :
  (forall v, loads (dumps v) = Ok v) ->
  fs !! filename = Some (dumps (document ps g)) ->
  Game.__init__ shuffle (map Player.name ps) h0 = (Ok g0, h') ->
  restore_players (map player_to_json ps) (Game.players g0) h' = (Ok tt, h1) ->
  load_game text loads shuffle filename (h0, fs) =
    (Ok (Game.mk (Game.players g0) (Game.pyramid g) (Game.rest_stapel g)), (h1, fs)).
Proof.
  intros loads_dumps Hfile Hinit Hrestore. unfold load_game.
  rewrite (bind_Ok _ _ _ (dumps (document ps g)) (h0, fs))
    by (by rewrite in_local_run, read_text_run, Hfile).
  rewrite (bind_Ok _ _ _ (document ps g) (h0, fs))
    by (unfold lift_result; by rewrite loads_dumps).
  rewrite (bind_Ok _ _ _ (map player_to_json ps) (h0, fs))
    by (unfold lift_result; by rewrite document_players).
  rewrite (bind_Ok _ _ _ (map Player.name ps) (h0, fs))
    by (unfold lift_result; by rewrite document_names).
  rewrite (bind_Ok _ _ _ g0 (h', fs)) by (by rewrite in_store_run, Hinit).
  rewrite (bind_Ok _ _ _ tt (h1, fs)) by (by rewrite in_store_run, Hrestore).
  rewrite (bind_Ok _ _ _ (map (map _card_to_tuple) (Pyramid.rows (Game.pyramid g)))
             (h1, fs))
    by (unfold lift_result; by rewrite document_rows).
  rewrite (bind_Ok _ _ _ (concat (Pyramid.rows (Game.pyramid g))) (h1, fs))
    by (unfold lift_result; by rewrite concat_from_to_tuples).
  rewrite (bind_Ok _ _ _ (Pyramid.rows (Game.pyramid g)) (h1, fs))
    by (unfold lift_result; by rewrite rows_from_to_tuples).
  rewrite (bind_Ok _ _ _ (Pyramid._row (Game.pyramid g)) (h1, fs))
    by (unfold lift_result; by rewrite document_row).
  rewrite (bind_Ok _ _ _ (Pyramid._col (Game.pyramid g)) (h1, fs))
    by (unfold lift_result; by rewrite document_col).
  rewrite (bind_Ok _ _ _ (Game.rest_stapel g) (h1, fs))
    by (unfold lift_result; by rewrite document_rest).
  cbn [Pyramid.rows Pyramid._row Pyramid._col]. by destruct (Game.pyramid g).
Qed.
End Files.

(** X14. Loading a file that does not exist raises [FileNotFoundError]
    before anything is built: no player is created, no file is touched. *)
Theorem load_game_missing_file {text : Type} (loads : text -> result json)
    (shuffle : list Card -> list Card) (filename : string) (h0 : store)
    (fs : gmap string text) :
  fs !! filename = None ->
  load_game text loads shuffle filename (h0, fs)
  = (Raise (FileNotFoundError filename), (h0, fs)).
Proof. apply load_game_missing. Qed.

Lemma load_game_missing_file_witness :
  load_game json Ok reverse "game.json" (sample_store, ∅)
  = (Raise (FileNotFoundError "game.json"), (sample_store, ∅)).
Proof. apply (load_game_missing_file Ok reverse "game.json" sample_store ∅). reflexivity. Defined.

(** X15. A file whose [players] array has fewer than 2 or more than 12
    entries (with string names) cannot be loaded: the construction inside
    [load_game] raises its [ValueError] and nothing has been created or
    changed, whatever the rest of the file says. *)
Theorem load_game_rejects_player_count {text : Type} (loads : text -> result json)
    (shuffle : list Card -> list Card) (filename : string) (h0 : store)
    (fs : gmap string text) (content : text) (data : json) (items : list json)
    (names : list string) :
  fs !! filename = Some content ->
  loads content = Ok data ->
  (ps ← json_getitem data "players"; as_list ps) = Ok items ->
  mapM (fun p => n ← json_getitem p "name"; as_str n) items = Ok names ->
  len names < 2 \/ 12 < len names ->
  load_game text loads shuffle filename (h0, fs)
  = (Raise (ValueError "minstens 2, max 12 spelers voor 4 kaarten pp"), (h0, fs)).
Proof. apply load_game_bad_count. Qed.

Lemma load_game_rejects_player_count_witness :
  load_game json Ok reverse "solo.json"
    (∅, {["solo.json" := document [alice] sample_game]})
  = (Raise (ValueError "minstens 2, max 12 spelers voor 4 kaarten pp"),
     (∅, {["solo.json" := document [alice] sample_game]})).
Proof.
  apply (load_game_rejects_player_count Ok reverse "solo.json" ∅ _
           (document [alice] sample_game) (document [alice] sample_game)
           [player_to_json alice] ["A"]); try reflexivity.
  left. vm_compute. reflexivity.
Defined.





(** X18. The players of a loaded game are new objects: all different, at
    references the store did not use before the load, and no object the store
    held before is changed by loading. *)
Theorem load_game_new_players {text : Type} (dumps : json -> text)
    (loads : text -> result json) (shuffle : list Card -> list Card)
    (g : Game.t) (ps : list Player.t) (filename : string) (h0 : store)
    (fs : gmap string text) :
  (forall v, loads (dumps v) = Ok v) ->
  (forall l, Permutation (shuffle l) l) ->
  2 <= len ps <= 12 ->
  fs !! filename = Some (dumps (document ps g)) ->
  exists g' h1,
    load_game text loads shuffle filename (h0, fs) = (Ok g', (h1, fs)) /\
    NoDup (Game.players g') /\
    Forall (fun l => h0 !! l = None) (Game.players g') /\
    Forall2 (fun l p => h1 !! l = Some p) (Game.players g') ps /\
    (forall l p, h0 !! l = Some p -> h1 !! l = Some p).
Proof.
  intros Hjson Hperm HN Hfile.
  destruct (init_run shuffle (map Player.name ps) h0 Hperm)
    as (ls & h' & Hinit & Hlen & Hnd & Hfresh & Hold & Hget).
  { unfold len in *. by rewrite length_map. }
  rewrite length_map in Hlen.
  destruct (restore_players_run ps ls h' Hnd) as (h1 & Hrestore & Hps & Hold').
  { apply Forall2_same_length_lookup_2; [done|]. intros i l p Hl Hp.
    destruct (Hget i l Hl) as (name & Hname & Hq).
    eexists. split; [exact Hq|]. simpl.
    rewrite list_lookup_fmap, Hp in Hname. by injection Hname. }
  eexists. exists h1.
  split; [exact (load_game_steps dumps loads shuffle g _ filename h0 h' h1 fs ps
                   Hjson Hfile Hinit Hrestore)|].
  cbn [Game.players]. split; [done|]. split; [done|]. split; [done|].
  intros l p Hl.
  assert (l ∉ ls) as Hnot.
  { intros Hin. rewrite Forall_forall in Hfresh. specialize (Hfresh l Hin). congruence. }
  by rewrite (Hold' l Hnot), (Hold l Hnot).
Qed.

Lemma load_game_new_players_witness :
  exists g' h1,
    load_game json Ok reverse "game.json"
      (sample_store, {["game.json" := document [alice; bob] sample_game]})
    = (Ok g', (h1, {["game.json" := document [alice; bob] sample_game]})) /\
    NoDup (Game.players g') /\
    Forall (fun l => sample_store !! l = None) (Game.players g') /\
    Forall2 (fun l p => h1 !! l = Some p) (Game.players g') [alice; bob] /\
    (forall l p, sample_store !! l = Some p -> h1 !! l = Some p).
Proof.
  apply (load_game_new_players id Ok reverse sample_game [alice; bob] "game.json"
           sample_store {["game.json" := document [alice; bob] sample_game]}).
  - reflexivity.
  - intros l. apply reverse_Permutation.
  - vm_compute. split; discriminate.
  - reflexivity.
Defined.

(** ** The console interface *)

Lemma get_player_from_run (ls : list loc) (ps : list Player.t) (name : string)
    (h : store) :
  Forall2 (fun l p => h !! l = Some p) ls ps ->
  Cli._get_player_from ls name h =
    (Ok (match list_find (fun p => Player.name p = name) ps with
         | Some (i, _) => ls !! i
         | None => None
         end), h).
Proof.
  intros Hall. induction Hall as [|l p ls ps Hl _ IH]; [reflexivity|].
  cbn [Cli._get_player_from].
  rewrite (bind_Ok _ _ _ _ _ (on_player_get _ _ _ Hl)).
  cbn [list_find]. case_bool_decide as Hname.
  - by rewrite decide_True.
  - rewrite decide_False by done. rewrite IH.
    by destruct (list_find _ ps) as [[i q]|].
Qed.

(** X19. [_get_player] changes nothing and returns the first player of the
    game who has the name, so that of two players with one name the second
    is never found; it returns [None] exactly when no player has the name. *)
Theorem get_player_first_match (g : Game.t) (name : string) (h : store)
    (ps : list Player.t) :
  Forall2 (fun l p => h !! l = Some p) (Game.players g) ps ->
  exists r,
    Cli._get_player g name h = (Ok r, h) /\
    match r with
    | Some l =>
        exists i p, Game.players g !! i = Some l /\ ps !! i = Some p /\
          Player.name p = name /\
          forall j q, ps !! j = Some q -> (j < i)%nat -> Player.name q <> name
    | None => Forall (fun p => Player.name p <> name) ps
    end.
Proof.
  intros Hall. eexists. split; [by apply get_player_from_run|].
  destruct (list_find (fun p => Player.name p = name) ps) as [[i p]|] eqn:Hfind.
  - apply list_find_Some in Hfind as (Hp & Hname & Hfirst).
    destruct (Forall2_lookup_r _ _ _ _ _ Hall Hp) as (l & Hl & _).
    rewrite Hl. exists i, p. split; [done|]. split; [done|]. split; [done|].
    intros j q Hq Hj. by eapply Hfirst.
  - by apply list_find_None in Hfind.
Qed.

Lemma get_player_first_match_witness :
  exists r,
    Cli._get_player sample_game "B" sample_store = (Ok r, sample_store) /\
    match r with
    | Some l =>
        exists i p, Game.players sample_game !! i = Some l /\ [alice; bob] !! i = Some p /\
          Player.name p = "B" /\
          forall j q, [alice; bob] !! j = Some q -> (j < i)%nat -> Player.name q <> "B"
    | None => Forall (fun p => Player.name p <> "B") [alice; bob]
    end.
Proof.
  apply (get_player_first_match sample_game "B" sample_store [alice; bob]).
  repeat constructor.
Defined.

Section CliRun.
Context (strip lower : string -> string) (split_comma : string -> list string).
Context (int : string -> result Z) (shuffle : list Card -> list Card).

Lemma print_run (s : string) (c : Cli.console) :
  Cli.print s c = (Ok tt, Cli.printed s c).
Proof. reflexivity. Qed.

Lemma input_run (prompt : string) (c : Cli.console) :
  Cli.input prompt c = (Ok (Cli.typed c (Cli.read c)), Cli.asked prompt c).
Proof. reflexivity. Qed.

(** One pass through the body of the loop, step by step. *)
Lemma loop_body_run (h : store) (g : Game.t) (c : Cli.console) :
  Cli.loop_body strip lower int (h, g, c) =
    match Game.reveal_next_card g with
    | (Raise e, g1) => (Raise e, (h, g1, c))
    | (Ok None, g1) => (Ok Cli.Break, (h, g1, Cli.printed "Piramide is op. Spel voorbij!" c))
    | (Ok (Some card), g1) =>
        let c1 := Cli.asked "Claimer (enter voor geen claim): "
                    (Cli.printed ("Piramidekaart: " +:+ rank card) c) in
        let claimer_name := strip (Cli.typed c (Cli.read c)) in
        if bool_decide (claimer_name = "") then (Ok Cli.Continue, (h, g1, c1))
        else
          match Cli._get_player g1 claimer_name h with
          | (Raise e, h1) => (Raise e, (h1, g1, c1))
          | (Ok None, h1) => (Ok Cli.Continue, (h1, g1, Cli.printed "Onbekende speler" c1))
          | (Ok (Some cl), h1) =>
              let c2 := Cli.asked "Doelwit: " c1 in
              let target_name := strip (Cli.typed c (S (Cli.read c))) in
              match Cli._get_player g1 target_name h1 with
              | (Raise e, h2) => (Raise e, (h2, g1, c2))
              | (Ok None, h2) =>
                  (Ok Cli.Continue, (h2, g1, Cli.printed "Ongeldig doelwit" c2))
              | (Ok (Some tl), h2) =>
                  if bool_decide (tl = cl)
                  then (Ok Cli.Continue, (h2, g1, Cli.printed "Ongeldig doelwit" c2))
                  else
                    let c3 := Cli.asked "Welke kaartindex (0-3): " c2 in
                    match int (Cli.typed c (S (S (Cli.read c)))) with
                    | Raise (ValueError msg) =>
                        (Ok Cli.Continue, (h2, g1, Cli.printed "Ongeldige index" c3))
                    | Raise e => (Raise e, (h2, g1, c3))
                    | Ok index =>
                        let c4 := Cli.asked "Gelooft doelwit? (j/n): " c3 in
                        let believes :=
                          negb (bool_decide
                                  (lower (strip (Cli.typed c (S (S (S (Cli.read c)))))) = "n")) in
                        match Game.play_turn (Some cl) (Some tl) (Some index) believes (h2, g1) with
                        | (Raise e, s') => (Raise e, (s', c4))
                        | (Ok (_, Some outcome), s') =>
                            if bool_decide (outcome = "") then (Ok Cli.Continue, (s', c4))
                            else (Ok Cli.Continue, (s', Cli.printed outcome c4))
                        | (Ok (_, None), s') => (Ok Cli.Continue, (s', c4))
                        end
                    end
              end
          end
    end.
Proof.
  unfold Cli.loop_body. unfold mbind at 1, M_bind at 1, bind at 1.
  rewrite in_store_run, in_local_run. cbn [fst snd].
  destruct (Game.reveal_next_card g) as [[[card|]|e] g1]; cbn [fst snd]; try reflexivity.
  unfold mbind at 1, M_bind at 1, bind at 1. rewrite in_local_run, print_run. cbn [fst snd].
  unfold mbind at 1, M_bind at 1, bind at 1. rewrite in_local_run, input_run. cbn [fst snd].
  cbv zeta. cbn [Cli.asked Cli.printed Cli.typed Cli.read].
  case_bool_decide; [reflexivity|].
  unfold mbind at 1, M_bind at 1, bind at 1. rewrite in_store_run, in_local_run. cbn [fst snd get].
  unfold mbind at 1, M_bind at 1, bind at 1. rewrite !in_store_run. cbn [fst snd].
  destruct (Cli._get_player g1 _ h) as [[[cl|]|e] h1]; cbn [fst snd]; try reflexivity.
  unfold mbind at 1, M_bind at 1, bind at 1. rewrite in_local_run, input_run. cbn [fst snd].
  unfold mbind at 1, M_bind at 1, bind at 1. rewrite in_store_run, in_local_run. cbn [fst snd get].
  unfold mbind at 1, M_bind at 1, bind at 1. rewrite !in_store_run. cbn [fst snd].
  cbn [Cli.asked Cli.printed Cli.typed Cli.read].
  destruct (Cli._get_player g1 _ h1) as [[[tl|]|e] h2]; cbn [fst snd]; try reflexivity.
  case_bool_decide; [reflexivity|].
  unfold mbind at 1, M_bind at 1, bind at 1. rewrite in_local_run, input_run. cbn [fst snd].
  cbn [Cli.asked Cli.printed Cli.typed Cli.read].
  destruct (int _) as [index|[]]; try reflexivity.
  unfold mbind at 1, M_bind at 1, bind at 1. rewrite in_local_run, input_run. cbn [fst snd].
  cbn [Cli.asked Cli.printed Cli.typed Cli.read].
  unfold mbind at 1, M_bind at 1, bind at 1. rewrite in_store_run.
  destruct (Game.play_turn _ _ _ _ _) as [[[card2 [outcome|]]|e] s']; cbn [fst snd];
    try reflexivity.
  by case_bool_decide.
Qed.

Lemma get_player_after_reveal (g : Game.t) (name : string) :
  Cli._get_player (snd (Game.reveal_next_card g)) name = Cli._get_player g name.
Proof. by rewrite reveal_next_card_run. Qed.

Lemma next_card_head (p : Pyramid.t) :
  Pyramid.wf p = true -> fst (Pyramid.next_card p) = Ok (head (Pyramid.pending p)).
Proof.
  intros Hwf. destruct (Pyramid.exhausted p) eqn:Hex.
  - rewrite next_card_exhausted by done. by rewrite (pending_exhausted p Hwf Hex).
  - destruct (next_card_wf p Hwf Hex) as (card & _ & Hfst & _ & _ & Hpend).
    by rewrite Hfst, Hpend.
Qed.

Lemma play_turn_card claimer target chosen_index target_believes (h : store)
    (g : Game.t) card outcome :
  fst (Game.play_turn claimer target chosen_index target_believes (h, g))
    = Ok (card, outcome) ->
  fst (Pyramid.next_card (Game.pyramid g)) = Ok (Some card).
Proof.
  turn_cases h g claimer target chosen_index target_believes; try done;
    try (by intros [= <- <-]).
  destruct target_believes.
  - destruct (h !! t); [|discriminate]. by intros [= <- <-].
  - destruct (h !! c) as [cp|]; [|discriminate]. simpl.
    destruct (py_getitem _ _); [|discriminate].
    case_bool_decide; [|by intros [= <- <-]].
    destruct (_ !! t); [|discriminate]. by intros [= <- <-].
Qed.


(** X21. A pass in which the user makes no claim (a blank answer to the
    first prompt) reveals one card, prints its rank, reads one line and
    leaves every player as they were. *)
Theorem loop_body_no_claim (h : store) (g : Game.t) (c : Cli.console) (card : Card) :
  fst (Pyramid.next_card (Game.pyramid g)) = Ok (Some card) ->
  strip (Cli.typed c (Cli.read c)) = "" ->
  Cli.loop_body strip lower int (h, g, c) =
    (Ok Cli.Continue,
     (h, snd (Game.reveal_next_card g),
      Cli.asked "Claimer (enter voor geen claim): "
        (Cli.printed ("Piramidekaart: " +:+ rank card) c))).
Proof.
  intros Hcard Hblank. rewrite loop_body_run.
  pose proof (reveal_next_card_run g) as Hrev. rewrite Hcard in Hrev.
  rewrite Hrev. cbv zeta. cbn [snd]. by rewrite Hblank.
Qed.

(** X22. A pass with a complete claim takes two cards from the pyramid: the
    card whose rank is printed, and a second one, revealed by [play_turn],
    against which the claim is judged.  So with cards [c1], [c2] and [rest]
    left, the turn is played on [c2] and [rest] is what is left after the
    pass. *)
Theorem loop_body_claim_takes_two_cards (h : store) (g : Game.t) (c : Cli.console)
    (c1 c2 : Card) (rest : list Card) (cl tl : loc) (index : Z) :
  Pyramid.wf (Game.pyramid g) = true ->
  Pyramid.pending (Game.pyramid g) = c1 :: c2 :: rest ->
  strip (Cli.typed c (Cli.read c)) <> "" ->
  Cli._get_player g (strip (Cli.typed c (Cli.read c))) h = (Ok (Some cl), h) ->
  Cli._get_player g (strip (Cli.typed c (S (Cli.read c)))) h = (Ok (Some tl), h) ->
  tl <> cl ->
  int (Cli.typed c (S (S (Cli.read c)))) = Ok index ->
  let believes :=
    negb (bool_decide (lower (strip (Cli.typed c (S (S (S (Cli.read c)))))) = "n")) in
  let turn := Game.play_turn (Some cl) (Some tl) (Some index) believes
                (h, snd (Game.reveal_next_card g)) in
  exists c',
    Cli.loop_body strip lower int (h, g, c) =
      (match fst turn with Ok _ => Ok Cli.Continue | Raise e => Raise e end,
       (snd turn, c')) /\
    (exists more,
       Cli.written c' = (Cli.written c
         ++ ("Piramidekaart: " +:+ rank c1 +:+ Cli.newline) :: more)%list) /\
    Cli.read c' = (4 + Cli.read c)%nat /\
    (forall card outcome, fst turn = Ok (card, outcome) -> card = c2) /\
    Pyramid.pending (Game.pyramid (snd (snd turn))) = rest.
Proof.
  intros Hwf Hpend Hname Hcl Htl Hne Hint believes turn.
  pose proof (next_card_head _ Hwf) as Hhead. rewrite Hpend in Hhead. simpl in Hhead.
  destruct (next_card_keeps_wf _ Hwf) as [Hwf1 Hpend1]. rewrite Hpend in Hpend1.
  simpl in Hpend1.
  pose proof (reveal_next_card_run g) as Hrev. rewrite Hhead in Hrev.
  assert (Game.pyramid (snd (Game.reveal_next_card g))
          = snd (Pyramid.next_card (Game.pyramid g))) as Hpyr
    by (by rewrite reveal_next_card_run).
  assert (Pyramid.pending (Game.pyramid (snd (snd turn))) = rest) as Hrest.
  { unfold turn. rewrite play_turn_game, reveal_next_card_run. cbn [snd Game.pyramid].
    rewrite Hpyr. destruct (next_card_keeps_wf _ Hwf1) as [_ ->]. by rewrite Hpend1. }
  assert (forall card outcome, fst turn = Ok (card, outcome) -> card = c2) as Hcard.
  { intros card outcome Hturn. apply play_turn_card in Hturn.
    rewrite Hpyr, (next_card_head _ Hwf1), Hpend1 in Hturn. by injection Hturn. }
  rewrite loop_body_run.
  rewrite <- (get_player_after_reveal g) in Hcl, Htl.
  revert Hcl Htl. fold turn. unfold turn in *. clear turn.
  destruct (Game.reveal_next_card g) as [r g1]. injection Hrev as -> ->.
  cbn [snd] in *. intros Hcl Htl. cbv zeta.
  rewrite bool_decide_eq_false_2 by done. rewrite Hcl, Htl.
  rewrite bool_decide_eq_false_2 by done. rewrite Hint. fold believes.
  destruct (Game.play_turn (Some cl) (Some tl) (Some index) believes _)
    as [[[card [outcome|]]|e] s'] eqn:Hturn; cbn [fst snd] in *.
  - case_bool_decide; eexists; (split; [reflexivity|]);
      (split; [eexists; cbn; rewrite <- !app_assoc; reflexivity|]); by repeat split.
  - eexists. split; [reflexivity|].
    split; [eexists; cbn; rewrite <- !app_assoc; reflexivity|]. by repeat split.
  - eexists. split; [reflexivity|].
    split; [eexists; cbn; rewrite <- !app_assoc; reflexivity|]. by repeat split.
Qed.

(** X23. When the printed card was the last one of the pyramid, a complete
    claim makes the program fail: [play_turn] finds no card and its
    [RuntimeError] leaves the loop, after all four answers were read and
    with no player changed. *)
Theorem loop_body_claim_on_last_card (h : store) (g : Game.t) (c : Cli.console)
    (c1 : Card) (cl tl : loc) (index : Z) :
  Pyramid.wf (Game.pyramid g) = true ->
  Pyramid.pending (Game.pyramid g) = [c1] ->
  strip (Cli.typed c (Cli.read c)) <> "" ->
  Cli._get_player g (strip (Cli.typed c (Cli.read c))) h = (Ok (Some cl), h) ->
  Cli._get_player g (strip (Cli.typed c (S (Cli.read c)))) h = (Ok (Some tl), h) ->
  tl <> cl ->
  int (Cli.typed c (S (S (Cli.read c)))) = Ok index ->
  exists c',
    Cli.loop_body strip lower int (h, g, c) =
      (Raise (RuntimeError "No more cards in the pyramid"),
       (h, snd (Game.reveal_next_card g), c')) /\
    Cli.read c' = (4 + Cli.read c)%nat /\
    Cli.written c' = (Cli.written c ++
      [ "Piramidekaart: " +:+ rank c1 +:+ Cli.newline;
        "Claimer (enter voor geen claim): "; "Doelwit: ";
        "Welke kaartindex (0-3): "; "Gelooft doelwit? (j/n): " ])%list.
Proof.
  intros Hwf Hpend Hname Hcl Htl Hne Hint.
  pose proof (next_card_head _ Hwf) as Hhead. rewrite Hpend in Hhead. simpl in Hhead.
  destruct (next_card_keeps_wf _ Hwf) as [Hwf1 Hpend1]. rewrite Hpend in Hpend1.
  simpl in Hpend1. pose proof (pending_nil_exhausted _ Hwf1 Hpend1) as Hex.
  pose proof (reveal_next_card_run g) as Hrev. rewrite Hhead in Hrev.
  rewrite loop_body_run.
  rewrite <- (get_player_after_reveal g) in Hcl, Htl. revert Hcl Htl.
  rewrite Hrev. cbn [snd]. intros Hcl Htl. cbv zeta.
  rewrite bool_decide_eq_false_2 by done. rewrite Hcl, Htl.
  rewrite bool_decide_eq_false_2 by done. rewrite Hint.
  rewrite play_turn_exhausted by done.
  eexists. split; [reflexivity|]. split; [reflexivity|].
  cbn. by rewrite <- !app_assoc.
Qed.

(** X24. The console never lets a player claim against themselves: when both
    names are those of one player, the pass ends with "Ongeldig doelwit",
    [play_turn] is not called, one card is gone and no player has changed. *)
Theorem loop_body_self_target (h : store) (g : Game.t) (c : Cli.console)
    (card : Card) (cl : loc) :
  fst (Pyramid.next_card (Game.pyramid g)) = Ok (Some card) ->
  strip (Cli.typed c (Cli.read c)) <> "" ->
  Cli._get_player g (strip (Cli.typed c (Cli.read c))) h = (Ok (Some cl), h) ->
  Cli._get_player g (strip (Cli.typed c (S (Cli.read c)))) h = (Ok (Some cl), h) ->
  Cli.loop_body strip lower int (h, g, c) =
    (Ok Cli.Continue,
     (h, snd (Game.reveal_next_card g),
      Cli.printed "Ongeldig doelwit"
        (Cli.asked "Doelwit: "
           (Cli.asked "Claimer (enter voor geen claim): "
              (Cli.printed ("Piramidekaart: " +:+ rank card) c))))).
Proof.
  intros Hcard Hname Hcl Htl.
  pose proof (reveal_next_card_run g) as Hrev. rewrite Hcard in Hrev.
  rewrite loop_body_run.
  rewrite <- (get_player_after_reveal g) in Hcl, Htl. revert Hcl Htl.
  rewrite Hrev. cbn [snd]. intros Hcl Htl. cbv zeta.
  rewrite bool_decide_eq_false_2 by done. rewrite Hcl, Htl.
  by rewrite bool_decide_eq_true_2.
Qed.

(** X25. The console does not check the card index: a challenged claim
    ("n") with an index outside the claimer's hand makes the program fail
    with [IndexError], two cards of the pyramid being gone. *)
Theorem loop_body_index_out_of_range (h : store) (g : Game.t) (c : Cli.console)
    (c1 c2 : Card) (rest : list Card) (cl tl : loc) (cp : Player.t) (index : Z) :
  Pyramid.wf (Game.pyramid g) = true ->
  Pyramid.pending (Game.pyramid g) = c1 :: c2 :: rest ->
  strip (Cli.typed c (Cli.read c)) <> "" ->
  Cli._get_player g (strip (Cli.typed c (Cli.read c))) h = (Ok (Some cl), h) ->
  Cli._get_player g (strip (Cli.typed c (S (Cli.read c)))) h = (Ok (Some tl), h) ->
  tl <> cl ->
  h !! cl = Some cp ->
  int (Cli.typed c (S (S (Cli.read c)))) = Ok index ->
  index < - len (Player.hand cp) \/ len (Player.hand cp) <= index ->
  lower (strip (Cli.typed c (S (S (S (Cli.read c)))))) = "n" ->
  fst (Cli.loop_body strip lower int (h, g, c))
    = Raise (IndexError "list index out of range") /\
  Pyramid.pending (Game.pyramid (snd (fst (snd (Cli.loop_body strip lower int (h, g, c))))))
    = rest.
Proof.
  intros Hwf Hpend Hname Hcl Htl Hne Hcp Hint Hrange Hn.
  pose proof (next_card_head _ Hwf) as Hhead. rewrite Hpend in Hhead. simpl in Hhead.
  destruct (next_card_keeps_wf _ Hwf) as [Hwf1 Hpend1]. rewrite Hpend in Hpend1.
  simpl in Hpend1.
  pose proof (reveal_next_card_run g) as Hrev. rewrite Hhead in Hrev.
  destruct (py_getitem_out_of_range _ _ Hrange) as [e He].
  pose proof (py_getitem_raises _ _ _ He) as ->.
  rewrite loop_body_run.
  rewrite <- (get_player_after_reveal g) in Hcl, Htl. revert Hcl Htl.
  rewrite Hrev. cbn [snd]. intros Hcl Htl. cbv zeta.
  rewrite bool_decide_eq_false_2 by done. rewrite Hcl, Htl.
  rewrite bool_decide_eq_false_2 by done. rewrite Hint.
  rewrite bool_decide_eq_true_2 by done. cbn [negb].
  rewrite (play_turn_claim cl tl index false h _ c2).
  2: { cbn [Game.pyramid]. by rewrite (next_card_head _ Hwf1), Hpend1. }
  cbv zeta. rewrite Hcp, He. cbn [fst snd].
  split; [done|]. rewrite reveal_next_card_run. cbn [snd Game.pyramid].
  destruct (next_card_keeps_wf _ Hwf1) as [_ ->]. by rewrite Hpend1.
Qed.

(** After a pass the pyramid is still well formed, and if the loop goes on, a
    card is gone. *)
Lemma loop_body_progress (h : store) (g : Game.t) (c : Cli.console) :
  Pyramid.wf (Game.pyramid g) = true ->
  let out := Cli.loop_body strip lower int (h, g, c) in
  Pyramid.wf (Game.pyramid (snd (fst (snd out)))) = true /\
  (fst out = Ok Cli.Continue ->
   (length (Pyramid.pending (Game.pyramid (snd (fst (snd out)))))
    < length (Pyramid.pending (Game.pyramid g)))%nat).
Proof using strip lower int.
  clear split_comma shuffle. intros Hwf. cbv zeta.
  pose proof (next_card_head _ Hwf) as Hhead.
  destruct (next_card_keeps_wf _ Hwf) as [Hwf1 Hpend1].
  assert (forall cl tl index believes h2,
            let s' := snd (Game.play_turn (Some cl) (Some tl) (Some index) believes
                             (h2, snd (Game.reveal_next_card g))) in
            Pyramid.wf (Game.pyramid (snd s')) = true /\
            (length (Pyramid.pending (Game.pyramid (snd s')))
             <= length (Pyramid.pending (snd (Pyramid.next_card (Game.pyramid g)))))%nat)
    as Hturn.
  { intros cl tl index believes h2. cbv zeta.
    rewrite play_turn_game, !reveal_next_card_run. cbn [snd Game.pyramid].
    destruct (next_card_keeps_wf _ Hwf1) as [Hwf2 ->]. split; [done|].
    destruct (Pyramid.pending (snd (Pyramid.next_card (Game.pyramid g)))); simpl; lia. }
  rewrite loop_body_run.
  pose proof (reveal_next_card_run g) as Hrev.
  destruct (Game.reveal_next_card g) as [r g1] eqn:Hg1.
  injection Hrev as -> ->. rewrite Hhead. cbn [snd] in Hturn.
  destruct (Pyramid.pending (Game.pyramid g)) as [|card pend] eqn:Hpend; cbn [head].
  { cbn [fst snd Game.pyramid]. split; [done | discriminate]. }
  simpl in Hpend1. cbv zeta.
  assert (forall (x : store) (y : Cli.console) (r : result Cli.flow),
            Pyramid.wf (Game.pyramid (snd (fst (snd
              (r, (x, Game.mk (Game.players g) (snd (Pyramid.next_card (Game.pyramid g)))
                              (Game.rest_stapel g), y)))))) = true /\
            (fst (r, (x, Game.mk (Game.players g) (snd (Pyramid.next_card (Game.pyramid g)))
                                 (Game.rest_stapel g), y)) = Ok Cli.Continue ->
             (length (Pyramid.pending (Game.pyramid (snd (fst (snd
                (r, (x, Game.mk (Game.players g) (snd (Pyramid.next_card (Game.pyramid g)))
                                (Game.rest_stapel g), y)))))))
              < length (card :: pend))%nat)) as Hg1'.
  { intros x y r. cbn [fst snd Game.pyramid]. rewrite Hpend1. simpl. split; [done | lia]. }
  case_bool_decide; [apply Hg1'|].
  destruct (Cli._get_player _ _ h) as [[[cl|]|e] h1]; try apply Hg1'.
  destruct (Cli._get_player _ _ h1) as [[[tl|]|e] h2]; try apply Hg1'.
  case_bool_decide; [apply Hg1'|].
  destruct (int _) as [index|[]]; try apply Hg1'.
  specialize (Hturn cl tl index
    (negb (bool_decide (lower (strip (Cli.typed c (S (S (S (Cli.read c)))))) = "n"))) h2).
  cbv zeta in Hturn. rewrite Hpend1 in Hturn.
  destruct (Game.play_turn _ _ _ _ _) as [[[card2 [outcome|]]|e] s'];
    cbn [fst snd] in *; try case_bool_decide; cbn [fst snd];
    (split; [tauto | intros _; simpl; lia]).
Qed.

(** X26. The loop of [run] ends: on a game whose pyramid is well formed and
    has [T] cards left it makes at most [T + 1] passes before it breaks or
    fails, whatever the user types. *)
Theorem run_loop_ends (fuel : nat) (h : store) (g : Game.t) (c : Cli.console) :
  Pyramid.wf (Game.pyramid g) = true ->
  (length (Pyramid.pending (Game.pyramid g)) < fuel)%nat ->
  fst (Cli.run_loop strip lower int fuel (h, g, c)) <> Ok false.
Proof using strip lower int.
  clear split_comma shuffle. revert h g c. induction fuel as [|fuel IH]; intros h g c Hwf Hfuel; [lia|].
  cbn [Cli.run_loop]. unfold mbind, M_bind, bind.
  pose proof (loop_body_progress h g c Hwf) as [Hwf' Hless]. cbv zeta in Hwf', Hless.
  destruct (Cli.loop_body strip lower int (h, g, c)) as [[[|]|e] [[h' g'] c']];
    cbn [fst snd] in *; [|discriminate..].
  apply IH; [done|]. specialize (Hless eq_refl). lia.
Qed.

(** X27. [run] builds no game from fewer than 2 or more than 12 names: the
    [ValueError] of the construction leaves [run] at once, after the one
    prompt for the names, and nothing else is printed or created. *)
Theorem run_rejects_player_count (fuel : nat) (h : store) (c : Cli.console) :
  let names := map strip (filter (fun n => strip n <> "")
                            (split_comma (Cli.typed c (Cli.read c)))) in
  len names < 2 \/ 12 < len names ->
  Cli.run strip lower split_comma int shuffle fuel (h, c) =
    (Raise (ValueError "minstens 2, max 12 spelers voor 4 kaarten pp"),
     (h, Cli.asked "Spelers (comma-gescheiden): " c)).
Proof.
  intros names Hcount. unfold Cli.run.
  rewrite (bind_Ok _ _ _ names (h, Cli.asked "Spelers (comma-gescheiden): " c))
    by (by rewrite in_local_run).
  unfold mbind, M_bind, bind. by rewrite in_store_run, init_invalid_count.
Qed.
End CliRun.

Lemma loop_body_no_claim_witness :
  Cli.loop_body id id sample_int
    (sample_store, sample_game, Cli.mkConsole (fun _ => "") 0 []) =
    (Ok Cli.Continue,
     (sample_store, snd (Game.reveal_next_card sample_game),
      Cli.asked "Claimer (enter voor geen claim): "
        (Cli.printed ("Piramidekaart: " +:+ rank (mkCard "A" "spades"))
           (Cli.mkConsole (fun _ => "") 0 [])))).
Proof. apply (loop_body_no_claim id id sample_int); reflexivity. Defined.

Lemma loop_body_claim_takes_two_cards_witness :
  Pyramid.pending (Game.pyramid (snd (snd
    (Game.play_turn (Some 0%nat) (Some 1%nat) (Some 1) false
       (sample_store, snd (Game.reveal_next_card sample_game))))))
  = [mkCard "Q" "spades"].
Proof.
  pose proof (loop_body_claim_takes_two_cards id id sample_int sample_store sample_game
                sample_console (mkCard "A" "spades") (mkCard "K" "spades")
                [mkCard "Q" "spades"] 0%nat 1%nat 1
                eq_refl eq_refl ltac:(discriminate) eq_refl eq_refl
                ltac:(discriminate) eq_refl)
    as (c' & _ & _ & _ & _ & Hrest).
  exact Hrest.
Defined.

Lemma loop_body_claim_on_last_card_witness :
  exists c',
    Cli.loop_body id id sample_int
      (sample_store, snd (Game.reveal_next_card (snd (Game.reveal_next_card sample_game))),
       sample_console) =
      (Raise (RuntimeError "No more cards in the pyramid"),
       (sample_store, finished_game, c')) /\
    Cli.read c' = (4 + Cli.read sample_console)%nat /\
    Cli.written c' = (Cli.written sample_console ++
      [ "Piramidekaart: " +:+ rank (mkCard "Q" "spades") +:+ Cli.newline;
        "Claimer (enter voor geen claim): "; "Doelwit: ";
        "Welke kaartindex (0-3): "; "Gelooft doelwit? (j/n): " ])%list.
Proof.
  apply (loop_body_claim_on_last_card id id sample_int sample_store
           (snd (Game.reveal_next_card (snd (Game.reveal_next_card sample_game))))
           sample_console (mkCard "Q" "spades") 0%nat 1%nat 1);
    try reflexivity; discriminate.
Defined.

Lemma loop_body_self_target_witness :
  Cli.loop_body id id sample_int
    (sample_store, sample_game, Cli.mkConsole (fun _ => "A") 0 []) =
    (Ok Cli.Continue,
     (sample_store, snd (Game.reveal_next_card sample_game),
      Cli.printed "Ongeldig doelwit"
        (Cli.asked "Doelwit: "
           (Cli.asked "Claimer (enter voor geen claim): "
              (Cli.printed ("Piramidekaart: " +:+ rank (mkCard "A" "spades"))
                 (Cli.mkConsole (fun _ => "A") 0 [])))))).
Proof.
  apply (loop_body_self_target id id sample_int sample_store sample_game
           (Cli.mkConsole (fun _ => "A") 0 []) (mkCard "A" "spades") 0%nat);
    try reflexivity; discriminate.
Defined.

Lemma loop_body_index_out_of_range_witness :
  fst (Cli.loop_body id id (fun _ => Ok 7) (sample_store, sample_game, sample_console))
    = Raise (IndexError "list index out of range") /\
  Pyramid.pending (Game.pyramid (snd (fst (snd
    (Cli.loop_body id id (fun _ => Ok 7) (sample_store, sample_game, sample_console))))))
    = [mkCard "Q" "spades"].
Proof.
  apply (loop_body_index_out_of_range id id (fun _ => Ok 7) sample_store sample_game
           sample_console (mkCard "A" "spades") (mkCard "K" "spades")
           [mkCard "Q" "spades"] 0%nat 1%nat alice 7);
    try reflexivity; try discriminate.
  right. vm_compute. discriminate.
Defined.

Lemma run_loop_ends_witness :
  fst (Cli.run_loop id id sample_int 4 (sample_store, sample_game, sample_console))
  <> Ok false.
Proof.
  apply (run_loop_ends id id sample_int 4 sample_store sample_game sample_console);
    [reflexivity | vm_compute; lia].
Defined.

Lemma run_rejects_player_count_witness :
  Cli.run id id (fun s => [s]) sample_int reverse 4 (sample_store, sample_console) =
    (Raise (ValueError "minstens 2, max 12 spelers voor 4 kaarten pp"),
     (sample_store, Cli.asked "Spelers (comma-gescheiden): " sample_console)).
Proof.
  apply (run_rejects_player_count id id (fun s => [s]) sample_int reverse 4
           sample_store sample_console).
  left. vm_compute. reflexivity.
Defined.

(** ** Revealing again, and loading a game in play *)

(** X28. Revealing a card that is already revealed changes nothing: the
    player stays exactly as they were and the same card is returned as by any
    other [reveal] of that index; so revealing twice is as revealing once. *)
Theorem reveal_again_no_change (index : Z) (p : Player.t) :
  (index ∈ Player.revealed_indices p ->
   Player.reveal index p = (py_getitem (Player.hand p) index, p)) /\
  Player.reveal index (snd (Player.reveal index p))
  = (fst (Player.reveal index p), snd (Player.reveal index p)).
Proof.
  assert (forall q : Player.t, index ∈ Player.revealed_indices q ->
            mark_revealed index q = q) as Hsame.
  { intros [n hd rv dr] Hin. unfold mark_revealed. simpl in *. f_equal.
    by apply subseteq_union_1_L, singleton_subseteq_l. }
  split.
  - intros Hin. by rewrite reveal_run, Hsame.
  - rewrite !reveal_run. cbn [fst snd]. rewrite (Hsame (mark_revealed index p)).
    + done.
    + simpl. set_solver.
Qed.

Lemma reveal_again_no_change_witness :
  Player.reveal 2 (mark_revealed 2 alice)
  = (py_getitem (Player.hand (mark_revealed 2 alice)) 2, mark_revealed 2 alice).
Proof.
  apply (proj1 (reveal_again_no_change 2 (mark_revealed 2 alice))).
  simpl. set_solver.
Defined.

(** X29. Saving a game that satisfies the invariant of a game in play and
    loading it, into any store, gives a game that satisfies it too. *)
Theorem load_keeps_game_ok {text : Type} (dumps : json -> text)
    (loads : text -> result json) (shuffle : list Card -> list Card)
    (h : store) (fs : gmap string text) (g : Game.t) (filename : string)
    (h0 : store) :
  (forall v, loads (dumps v) = Ok v) ->
  (forall l, Permutation (shuffle l) l) ->
  game_ok h g ->
  exists fs1 g' h1,
    save_game text dumps g filename (h, fs) = (Ok tt, (h, fs1)) /\
    load_game text loads shuffle filename (h0, fs1) = (Ok g', (h1, fs1)) /\
    game_ok h1 g'.
Proof.
  intros Hjson Hperm (HN & Hnd & Hps & Hwf).
  assert (Forall (fun l => is_Some (h !! l)) (Game.players g)) as Hlive.
  { eapply Forall_impl; [exact Hps|]. intros l (p & -> & _). eauto. }
  destruct (read_players_run (Game.players g) h Hlive) as (ps & Hall & Hread).
  pose proof (Forall2_length _ _ _ Hall) as Hlen.
  destruct (load_game_run dumps loads shuffle Hjson Hperm g filename h0
              (<[filename := dumps (document ps g)]> fs) ps)
    as (ls & h1 & Hload & Hnd' & Hnew & _).
  { unfold len in *. by rewrite <- Hlen. }
  { apply lookup_insert_eq. }
  eexists. eexists. exists h1.
  split; [by apply save_game_run|]. split; [exact Hload|].
  unfold game_ok. cbn [Game.players Game.pyramid].
  pose proof (Forall2_length _ _ _ Hnew) as Hlen'.
  split; [unfold len in *; lia|]. split; [done|]. split; [|done].
  apply Forall_forall. intros l Hl. apply list_elem_of_lookup in Hl as [i Hi].
  destruct (Forall2_lookup_l _ _ _ _ _ Hnew Hi) as (p & Hp & Hlp).
  destruct (Forall2_lookup_r _ _ _ _ _ Hall Hp) as (l0 & Hl0 & Hl0p).
  exists p. split; [done|].
  rewrite Forall_forall in Hps.
  destruct (Hps l0 (list_elem_of_lookup_2 _ _ _ Hl0)) as (p' & Hp' & Hok).
  congruence.
Qed.

Lemma load_keeps_game_ok_witness :
  exists fs1 g' h1,
    save_game json id sample_game "game.json" (sample_store, ∅) = (Ok tt, (sample_store, fs1)) /\
    load_game json Ok reverse "game.json" (∅, fs1) = (Ok g', (h1, fs1)) /\
    game_ok h1 g'.
Proof.
  apply (load_keeps_game_ok id Ok reverse sample_store ∅ sample_game "game.json" ∅).
  - reflexivity.
  - intros l. apply reverse_Permutation.
  - split; [vm_compute; split; discriminate|]. split.
    { apply (bool_decide_unpack (NoDup [0%nat; 1%nat])). vm_compute. exact I. }
    split; [|reflexivity].
    repeat constructor; eexists; (split; [reflexivity|]); split; first [reflexivity | lia].
Defined.
